(** * DRLND-reacher: a DDPG agent and its training loop

    A shallow embedding of [agent.py] (classes [Agent] and [ReplayBuffer])
    and of [train_agent.py] (function [ddpg]), followed by the properties
    the specification states about them.

    Numbers.  The tensors of the program hold binary32 floating-point
    numbers.  The classes and the training loop are embedded over the
    canonical rationals [Qc], the real numbers these floats stand for:
    what is proved of them is what is stored, what is called, in which
    order and on which data, and these properties do not depend on how a
    sum or a product is rounded.  The two formulas of which the
    specification states values, the target of the critic and the soft
    update, are embedded a second time, operation by operation, over the
    IEEE 754 numbers of [SpecFloat] (module [Float32]); the properties of
    their values are proved of that embedding.

    A tensor is a list of scalars (a column of shape B x 1 is a list of B
    scalars, a batch of shape B x n is a list of B rows); the parameter
    set of a network, [parameters()], is the list of its tensors, each one
    flattened. *)

From Stdlib Require Import QArith Qcanon Qcabs SpecFloat.
From stdpp Require Import base decidable option numbers list strings gmap.

Set Default Proof Using "Type".

(** ** Scalars and tensors *)

Abbreviation tensor := (list Qc) (only parsing).
Abbreviation batch2d := (list (list Qc)) (only parsing).
Abbreviation params := (list (list Qc)) (only parsing).

(** [shape p]: the sizes of the tensors of a parameter set. *)
Definition shape (p : list tensor) : list nat := map length p.

(** [b2q d]: [np.uint8(d)] followed by [.float()], on a terminal flag. *)
Definition b2q (d : bool) : Qc := if d then 1%Qc else 0%Qc.

(** Elementwise operations on tensors of one shape. *)
Definition tadd (x y : tensor) : tensor := zip_with Qcplus x y.
Definition tmul (x y : tensor) : tensor := zip_with Qcmult x y.
Definition tscale (c : Qc) (x : tensor) : tensor := map (Qcmult c) x.
(** [1 - x], the scalar on the left. *)
Definition trsub (c : Qc) (x : tensor) : tensor := map (Qcminus c) x.

Definition padd (p q : params) : params := zip_with tadd p q.
Definition zeros_like (p : params) : params := map (map (fun _ => 0%Qc)) p.

(** [qsum l] is Python's [sum(l)], [qmean l] is [np.mean(l)].  The mean of
    an empty window is not a number in numpy; the training loop never asks
    for it, and here [x / 0 = 0]. *)
Definition qsum (l : list Qc) : Qc := foldr Qcplus 0%Qc l.
Definition qmean (l : list Qc) : Qc :=
  (qsum l / Qc_of_Z (Z.of_nat (length l)))%Qc.

(** ** collections.deque(maxlen=n) and random.sample *)

(** [deque.append]: the item is put at the right end; a deque longer than
    [maxlen] then loses its leftmost item. *)
Definition deque_append {A} (maxlen : nat) (d : list A) (x : A) : list A :=
  let d' := d ++ [x] in
  if decide (maxlen < length d') then tail d' else d'.

(** [random.sample(population, k)]: [k] items at distinct positions, chosen
    from a pool from which every choice is taken away.  The generator is
    abstracted as the sequence [rnd] of its draws: the [i]-th choice is
    position [rnd i mod n] of the [n] items left.  A sample larger than the
    population is a [ValueError], here [None]. *)
Fixpoint random_pick {A} (pool : list A) (k : nat) (rnd : nat -> nat)
    (i : nat) : list A :=
  match k with
  | O => []
  | S k' =>
      let j := rnd i mod length pool in
      match pool !! j with
      | Some x => x :: random_pick (delete j pool) k' rnd (S i)
      | None => []
      end
  end.

Definition random_sample {A} (population : list A) (k : nat)
    (rnd : nat -> nat) : option (list A) :=
  if decide (k <= length population)
  then Some (random_pick population k rnd 0)
  else None.

(** ** The replay buffer *)

(** [state] and [next_state] are the observation vectors of the
    environment; [action] is the array the training loop sent to the
    environment, of shape 1 x action_size. *)
Record Experience := mkExperience {
  state : tensor;
  action : batch2d;
  reward : Qc;
  next_state : tensor;
  done : bool
}.

(** The five arrays [sample] builds with [np.vstack]: a vector or a
    scalar becomes one row, the rows of two-dimensional arrays are put one
    under the other. *)
Record Batch := mkBatch {
  b_states : batch2d;
  b_actions : batch2d;
  b_rewards : tensor;
  b_next_states : batch2d;
  b_dones : tensor
}.

Module ReplayBuffer.

Record t := mk {
  buffer_size : nat;
  batch_size : nat;
  memory : list Experience
}.

Definition init (buffer_size batch_size : nat) : t :=
  mk buffer_size batch_size [].

Definition add (b : t) (s : tensor) (a : batch2d) (r : Qc) (s' : tensor)
    (d : bool) : t :=
  let e := mkExperience s a r s' d in
  mk (buffer_size b) (batch_size b) (deque_append (buffer_size b) (memory b) e).

Definition len (b : t) : nat := length (memory b).

(** The records [random.sample] drew, before they are stacked. *)
Definition draw (b : t) (rnd : nat -> nat) : option (list Experience) :=
  random_sample (memory b) (batch_size b) rnd.

Definition stack (experiences : list Experience) : Batch :=
  mkBatch (map state experiences) (concat (map action experiences))
          (map reward experiences) (map next_state experiences)
          (map (fun e => b2q (done e)) experiences).

(** [np.vstack] raises [ValueError] when it is given no array, and when
    the rows of the arrays it is given do not have one length.  The
    arrays of rewards and of flags are made of scalars: for them only the
    first case can occur. *)
Definition same_width {A} (rows : list (list A)) : bool :=
  match rows with
  | [] => true
  | r :: rows => forallb (fun x => length x =? length r) rows
  end.

Definition stackable (experiences : list Experience) : bool :=
  match experiences with
  | [] => false
  | _ :: _ =>
      same_width (map state experiences)
      && same_width (concat (map action experiences))
      && same_width (map next_state experiences)
  end.

(** [sample]: the records are drawn, then stacked.  [None] when
    [random.sample] or [np.vstack] raises. *)
Definition sample (b : t) (rnd : nat -> nat) : option Batch :=
  experiences ← draw b rnd;
  if stackable experiences then Some (stack experiences) else None.

(** A sequence of [add] calls. *)
Definition add_all (b : t) (es : list Experience) : t :=
  foldl (fun b e => add b (state e) (action e) (reward e) (next_state e) (done e))
        b es.

End ReplayBuffer.

(** ** What [agent.py] imports *)

(** [settings.py] is imported with [from settings import *]; its constants
    are the fields of this record.  (The learning rate and the layer sizes
    are used only inside the networks and the optimizers below.) *)
Record Settings := mkSettings {
  BUFFER_SIZE : nat;
  BATCH_SIZE : nat;
  UPDATE_EVERY : nat;
  GAMMA : Qc;
  TAU : Qc
}.

(** [network.py] (classes [Actor] and [Critic]), torch's automatic
    differentiation and [torch.optim.Adam] are taken as an interface.
    - [actor_forward training p x] and [critic_forward p x u] are the
      forward passes of a network whose parameters are [p]; an actor is
      run in training or in evaluation mode.
    - The actor loss of [learn], [-critic(states, actor(states)).mean()],
      depends on the parameters of the actor and of the critic;
      [grad_policy_actor] and [grad_policy_critic] are its gradients in
      the ones and in the others.
    - The critic loss, [mse_loss(critic(states, actions), target)] with a
      detached target, depends on the parameters of the critic only;
      [grad_critic_loss] is its gradient.
    - [adam_step o p g]: one [step()] of an optimizer in state [o] over the
      parameters [p] whose [.grad] fields hold [g].
    - [actor_new state_size action_size seed k] and [critic_new ...] are
      the parameters of the [k]-th network of that class the process
      constructs ([k] from 0): a constructor draws its weights, so two
      constructions need not give the same parameters. *)
Record Backend := mkBackend {
  opt_state : Type;
  actor_new : nat -> nat -> nat -> nat -> params;
  critic_new : nat -> nat -> nat -> nat -> params;
  adam_new : params -> opt_state;
  actor_forward : bool -> params -> batch2d -> batch2d;
  critic_forward : params -> batch2d -> batch2d -> tensor;
  grad_policy_actor : bool -> params -> params -> batch2d -> params;
  grad_policy_critic : bool -> params -> params -> batch2d -> params;
  grad_critic_loss : params -> batch2d -> batch2d -> tensor -> params;
  adam_step : opt_state -> params -> params -> params * opt_state
}.

(** [for target_param, param in zip(target.parameters(), live.parameters()):
       target_param.data.copy_(f(target_param.data, param.data))]
    The tensors of the target are overwritten pair by pair; [zip] stops at
    the shorter list, the other tensors of the target are left as they are. *)
Fixpoint zip_update {A} (f : A -> A -> A) (target live : list A) : list A :=
  match target, live with
  | t :: ts, l :: ls => f t l :: zip_update f ts ls
  | ts, [] => ts
  | [], _ => []
  end.

(** [tau * param.data + (1.0 - tau) * target_param.data], in the real
    numbers ([Float32.soft_mix] is the computation in floats). *)
Definition soft_mix (tau : Qc) (target_param param : tensor) : tensor :=
  tadd (tscale tau param) (tscale (1 - tau)%Qc target_param).

Definition soft_update (tau : Qc) (target live : params) : params :=
  zip_update (soft_mix tau) target live.

(** [rewards + gamma * next_Q * mask], in the real numbers
    ([Float32.Q_prime] is the computation in floats). *)
Definition Q_prime (gamma : Qc) (rewards next_Q mask : tensor) : tensor :=
  tadd rewards (tmul (tscale gamma next_Q) mask).

(** ** The two formulas in floating-point arithmetic

    The tensors of the program hold IEEE 754 binary32 numbers, and the
    Python scalars [gamma] and [tau] are binary64 numbers.  [spec_float]
    is the specification of these numbers (signed zeros, infinities, one
    NaN, and finite numbers [m * 2^e]) and of their operations, rounded to
    the nearest, ties to even.  The two formulas of [agent.py] of which
    the specification states values, the target of the critic and the
    soft update, are given here operation by operation, as torch computes
    them: a Python scalar that meets a float32 tensor is first converted
    to binary32. *)



Definition is_finite (x : spec_float) : bool :=
  match x with
  | S754_zero _ | S754_finite _ _ _ => true
  | S754_infinity _ | S754_nan => false
  end.

(** Python's [float]. *)
Module Float64.

Definition prec : Z := 53.
Definition emax : Z := 1024.

Definition sub : spec_float -> spec_float -> spec_float := SFsub prec emax.

(** The float nearest to [m * 2^e]. *)
Definition make (m e : Z) : spec_float := binary_normalize prec emax m e false.

Definition one : spec_float := make 1 0.

End Float64.

(** [torch.float32], the type of every tensor of the program. *)
Module Float32.

Definition prec : Z := 24.
Definition emax : Z := 128.

Definition add : spec_float -> spec_float -> spec_float := SFadd prec emax.
Definition sub : spec_float -> spec_float -> spec_float := SFsub prec emax.
Definition mul : spec_float -> spec_float -> spec_float := SFmul prec emax.

Definition make (m e : Z) : spec_float := binary_normalize prec emax m e false.

Definition one : spec_float := make 1 0.

(** The conversion of a Python scalar. *)
Definition of_double (x : spec_float) : spec_float :=
  match x with
  | S754_finite s m e => binary_round prec emax s m e
  | _ => x
  end.

(** [rewards + gamma * next_Q * mask], that is
    [rewards + ((gamma * next_Q) * mask)]. *)
Definition Q_prime (gamma : spec_float) (rewards next_Q mask : list spec_float)
    : list spec_float :=
  zip_with add rewards
    (zip_with mul (map (mul (of_double gamma)) next_Q) mask).

(** The target of the critic in [learn], the forward passes of the two
    target networks being [actor_target] and [critic_target]. *)
Definition learn_target
    (actor_target : list (list spec_float) -> list (list spec_float))
    (critic_target : list (list spec_float) -> list (list spec_float)
                     -> list spec_float)
    (rewards : list spec_float) (next_states : list (list spec_float))
    (dones : list spec_float) (gamma : spec_float) : list spec_float :=
  let mask := map (sub one) dones in
  let next_actions := actor_target next_states in
  let next_Q := critic_target next_states next_actions in
  Q_prime gamma rewards next_Q mask.


Definition soft_mix (tau : spec_float) (target_param param : list spec_float)
    : list spec_float :=
  zip_with add (map (mul (of_double tau)) param)
    (map (mul (of_double (Float64.sub Float64.one tau))) target_param).

Definition soft_update (tau : spec_float)
    (target live : list (list spec_float)) : list (list spec_float) :=
  zip_update (soft_mix tau) target live.

(** The parameters of the four networks of an agent. *)
Record networks := mkNetworks {
  actor : list (list spec_float);
  actor_target : list (list spec_float);
  critic : list (list spec_float);
  critic_target : list (list spec_float)
}.

(** [Agent.actor_soft_update] and [Agent.critic_soft_update] *)
Definition actor_soft_update (a : networks) (tau : spec_float) : networks :=
  mkNetworks (actor a) (soft_update tau (actor_target a) (actor a))
             (critic a) (critic_target a).

Definition critic_soft_update (a : networks) (tau : spec_float) : networks :=
  mkNetworks (actor a) (actor_target a)
             (critic a) (soft_update tau (critic_target a) (critic a)).




End Float32.

(** [load_state_dict] refuses tensors whose sizes are not those of the
    module. *)
Definition load_state_dict (current loaded : params) : option params :=
  if decide (shape loaded = shape current) then Some loaded else None.

Module Agent.
Section WithBackend.
Context (cfg : Settings) (net : Backend).

Record t := mk {
  state_size : nat;
  action_size : nat;
  actor : params;
  actor_target : params;
  critic : params;
  critic_target : params;
  (** the mode of [self.actor]: [train()] or [eval()] *)
  actor_training : bool;
  (** the [.grad] fields of the parameters of the two live networks;
      a gradient that was never computed is a zero gradient *)
  actor_grad : params;
  critic_grad : params;
  actor_optimizer : opt_state net;
  critic_optimizer : opt_state net;
  memory : ReplayBuffer.t;
  t_step : nat
}.

Definition set_actor (a : t) (p : params) (g : params) (o : opt_state net) : t :=
  mk (state_size a) (action_size a) p (actor_target a) (critic a)
     (critic_target a) (actor_training a) g (critic_grad a) o
     (critic_optimizer a) (memory a) (t_step a).

Definition set_critic (a : t) (p : params) (g : params) (o : opt_state net) : t :=
  mk (state_size a) (action_size a) (actor a) (actor_target a) p
     (critic_target a) (actor_training a) (actor_grad a) g
     (actor_optimizer a) o (memory a) (t_step a).

Definition set_targets (a : t) (pa pc : params) : t :=
  mk (state_size a) (action_size a) (actor a) pa (critic a) pc
     (actor_training a) (actor_grad a) (critic_grad a)
     (actor_optimizer a) (critic_optimizer a) (memory a) (t_step a).

Definition set_training (a : t) (m : bool) : t :=
  mk (state_size a) (action_size a) (actor a) (actor_target a) (critic a)
     (critic_target a) m (actor_grad a) (critic_grad a)
     (actor_optimizer a) (critic_optimizer a) (memory a) (t_step a).

Definition set_memory (a : t) (m : ReplayBuffer.t) (n : nat) : t :=
  mk (state_size a) (action_size a) (actor a) (actor_target a) (critic a)
     (critic_target a) (actor_training a) (actor_grad a) (critic_grad a)
     (actor_optimizer a) (critic_optimizer a) m n.

(** [Agent.__init__] *)
Definition init (state_size action_size seed : nat) : t :=
  let actor := actor_new net state_size action_size seed 0 in
  let actor_target := actor_new net state_size action_size seed 1 in
  let critic := critic_new net state_size action_size seed 0 in
  let critic_target := critic_new net state_size action_size seed 1 in
  mk state_size action_size actor
     (zip_update (fun _ param => param) actor_target actor)
     critic
     (zip_update (fun _ param => param) critic_target critic)
     true (zeros_like actor) (zeros_like critic)
     (adam_new net actor) (adam_new net critic)
     (ReplayBuffer.init (BUFFER_SIZE cfg) (BATCH_SIZE cfg)) 0.

(** [Agent.actor_soft_update] and [Agent.critic_soft_update] *)
Definition actor_soft_update (a : t) (tau : Qc) : t :=
  set_targets a (soft_update tau (actor_target a) (actor a)) (critic_target a).

Definition critic_soft_update (a : t) (tau : Qc) : t :=
  set_targets a (actor_target a) (soft_update tau (critic_target a) (critic a)).

(** [Agent.act]: the state becomes a batch of one row ([unsqueeze(0)]),
    the actor is run on it in evaluation mode and put back in training
    mode; [tolist()] keeps the two levels of the result. *)
Definition act (a : t) (state : tensor) : t * batch2d :=
  let state := [state] in
  let a := set_training a false in
  let action_values := actor_forward net (actor_training a) (actor a) state in
  let a := set_training a true in
  (a, action_values).

(** The target of the critic in [learn]. *)
Definition learn_target (a : t) (experiences : Batch) (gamma : Qc) : tensor :=
  let mask := trsub 1 (b_dones experiences) in
  let next_actions :=
    actor_forward net true (actor_target a) (b_next_states experiences) in
  let next_Q :=
    critic_forward net (critic_target a) (b_next_states experiences)
                   next_actions in
  Q_prime gamma (b_rewards experiences) next_Q mask.

(** [module.zero_grad()], [loss.backward()] and [optimizer.step()] of
    [learn].  [backward] adds the gradient of the loss to the [.grad] of
    every parameter the loss depends on. *)
Definition actor_zero_grad (a : t) : t :=
  set_actor a (actor a) (zeros_like (actor a)) (actor_optimizer a).

Definition critic_zero_grad (a : t) : t :=
  set_critic a (critic a) (zeros_like (critic a)) (critic_optimizer a).

Definition policy_loss_backward (a : t) (g_actor g_critic : params) : t :=
  let a := set_actor a (actor a) (padd (actor_grad a) g_actor)
                     (actor_optimizer a) in
  set_critic a (critic a) (padd (critic_grad a) g_critic)
             (critic_optimizer a).

Definition critic_loss_backward (a : t) (g_critic : params) : t :=
  set_critic a (critic a) (padd (critic_grad a) g_critic)
             (critic_optimizer a).

Definition actor_optimizer_step (a : t) : t :=
  let '(p, o) := adam_step net (actor_optimizer a) (actor a) (actor_grad a) in
  set_actor a p (actor_grad a) o.

Definition critic_optimizer_step (a : t) : t :=
  let '(p, o) := adam_step net (critic_optimizer a) (critic a) (critic_grad a) in
  set_critic a p (critic_grad a) o.

(** [Agent.learn] up to the second optimizer step.  Both losses are
    built first, on the parameters the call started with. *)
Definition learn_actor_update (a : t) (experiences : Batch) : t :=
  let g_actor :=
    grad_policy_actor net (actor_training a) (actor a) (critic a)
                      (b_states experiences) in
  let g_critic :=
    grad_policy_critic net (actor_training a) (actor a) (critic a)
                       (b_states experiences) in
  let a := actor_zero_grad a in
  let a := policy_loss_backward a g_actor g_critic in
  actor_optimizer_step a.

Definition learn_critic_update (a : t) (g_critic : params) : t :=
  let a := critic_zero_grad a in
  let a := critic_loss_backward a g_critic in
  critic_optimizer_step a.

Definition gradient_steps (a : t) (experiences : Batch) (gamma : Qc) : t :=
  let Q_prime := learn_target a experiences gamma in
  let g_critic :=
    grad_critic_loss net (critic a) (b_states experiences)
                     (b_actions experiences) Q_prime in
  let a := learn_actor_update a experiences in
  learn_critic_update a g_critic.

(** [Agent.learn] *)
Definition learn (a : t) (experiences : Batch) (gamma : Qc) : t :=
  let a := gradient_steps a experiences gamma in
  let a := actor_soft_update a (TAU cfg) in
  critic_soft_update a (TAU cfg).

(** What a call of [step] did besides storing the record: the buffer
    [sample()] was called on, the mini-batch [learn] was called with. *)
Inductive event :=
| Sampled (b : ReplayBuffer.t)
| Learned (experiences : Batch).

(** [Agent.step].  [x % 0] raises [ZeroDivisionError], and [sample()]
    can raise [ValueError]: [None]. *)
Definition step (a : t) (s : tensor) (u : batch2d) (r : Qc) (s' : tensor)
    (d : bool) (rnd : nat -> nat) : option (t * list event) :=
  let memory := ReplayBuffer.add (memory a) s u r s' d in
  if decide (UPDATE_EVERY cfg = 0) then None else
  let t_step := (t_step a + 1) mod UPDATE_EVERY cfg in
  let a := set_memory a memory t_step in
  if decide (t_step = 0) then
    if decide (BATCH_SIZE cfg < ReplayBuffer.len memory) then
      experiences ← ReplayBuffer.sample memory rnd;
      Some (learn a experiences (GAMMA cfg),
            [Sampled memory; Learned experiences])
    else Some (a, [])
  else Some (a, []).

(** [Agent.save_model] and [Agent.load_model] on a file system where
    every write succeeds and two strings name two files: the file
    system is then the map from the paths of its files to the parameter
    sets stored there, and [torch.load] of a path that is not there
    fails.  (This is [Checkpoint.save_model] and [Checkpoint.load_model]
    below on the file system [Stub.disk] with every name writable; a
    [torch.save] that raises and paths that name one file are in
    [Checkpoint].) *)
Definition save_model (a : t) (checkpoint_path : string)
    (fs : gmap string params) : gmap string params :=
  let fs := <[checkpoint_path +:+ "/actor.pt" := actor a]> fs in
  <[checkpoint_path +:+ "/critic.pt" := critic a]> fs.

Definition load_model (a : t) (checkpoint_path : string)
    (fs : gmap string params) : option t :=
  loaded ← fs !! (checkpoint_path +:+ "/actor.pt");
  p ← load_state_dict (actor a) loaded;
  let a := set_actor a p (actor_grad a) (actor_optimizer a) in
  loaded ← fs !! (checkpoint_path +:+ "/critic.pt");
  p ← load_state_dict (critic a) loaded;
  Some (set_critic a p (critic_grad a) (critic_optimizer a)).

End WithBackend.
End Agent.

(** ** Checkpoints on a file system *)

(** [torch.save(obj, f)] and [torch.load(f)] on the state dictionary of a
    network, as functions of the state of the file system.  [torch.save]
    raises when the file cannot be written (its directory is not there,
    for one); [torch.load] raises when the file cannot be read. *)
Record FileSystem := mkFileSystem {
  fs_state : Type;
  torch_save : params -> string -> fs_state -> option fs_state;
  torch_load : string -> fs_state -> option params
}.

(** What is asked of a file system, [same_file f g] telling when two
    paths name one file ([dir/actor.pt] and [dir//actor.pt] do): what was
    saved under a path is what is loaded from it, and a save leaves every
    other file as it was. *)
Record FileSystemLaws (F : FileSystem) (same_file : string -> string -> Prop)
    : Prop := mkFileSystemLaws {
  load_after_save : forall p f fs fs',
    torch_save F p f fs = Some fs' -> torch_load F f fs' = Some p;
  load_other_file : forall p f g fs fs',
    torch_save F p f fs = Some fs' -> ~ same_file f g ->
    torch_load F g fs' = torch_load F g fs
}.

Module Checkpoint.
Section WithFileSystem.
Context (net : Backend) (F : FileSystem).

(** [Agent.save_model]: the second file is written after the first, and
    only if the first [torch.save] returned. *)
Definition save_model (a : Agent.t net) (checkpoint_path : string)
    (fs : fs_state F) : option (fs_state F) :=
  fs ← torch_save F (Agent.actor net a) (checkpoint_path +:+ "/actor.pt") fs;
  torch_save F (Agent.critic net a) (checkpoint_path +:+ "/critic.pt") fs.

(** [Agent.load_model] *)
Definition load_model (a : Agent.t net) (checkpoint_path : string)
    (fs : fs_state F) : option (Agent.t net) :=
  loaded ← torch_load F (checkpoint_path +:+ "/actor.pt") fs;
  p ← load_state_dict (Agent.actor net a) loaded;
  let a := Agent.set_actor net a p (Agent.actor_grad net a)
                           (Agent.actor_optimizer net a) in
  loaded ← torch_load F (checkpoint_path +:+ "/critic.pt") fs;
  p ← load_state_dict (Agent.critic net a) loaded;
  Some (Agent.set_critic net a p (Agent.critic_grad net a)
                         (Agent.critic_optimizer net a)).

End WithFileSystem.
End Checkpoint.

(** ** The training loop of [train_agent.py] *)

(** The collaborators of [ddpg], each with the state it carries.
    [env_reset] and [env_step] give what the loop reads of [env_info]: the
    observation, the reward and the terminal flag of the first agent. *)
Record EnvOps (E : Type) := mkEnvOps {
  env_reset : E -> E * tensor;
  env_step : E -> batch2d -> E * (tensor * Qc * bool);
  env_close : E -> E
}.

(** [util.OUNoise] *)
Record NoiseOps (N : Type) := mkNoiseOps {
  noise_new : nat -> N;
  noise_reset : N -> N;
  get_action : N -> batch2d -> nat -> N * batch2d
}.

(** The three methods [ddpg] calls on its [agent] argument. *)
Record AgentOps (A : Type) := mkAgentOps {
  agent_act : A -> tensor -> A * batch2d;
  agent_step : A -> tensor -> batch2d -> Qc -> tensor -> bool -> A;
  agent_save_model : A -> A
}.

Arguments env_reset {E}.
Arguments env_step {E}.
Arguments env_close {E}.
Arguments noise_new {N}.
Arguments noise_reset {N}.
Arguments get_action {N}.
Arguments agent_act {A}.
Arguments agent_step {A}.
Arguments agent_save_model {A}.

(** What [ddpg] prints: the progress line of every episode, the same line
    kept every hundredth episode, and the closing message with the number
    [i_episode-100] it reports. *)
Inductive printed :=
| Progress (i_episode : nat) (average : Qc)
| ProgressKept (i_episode : nat) (average : Qc)
| Solved (episodes : Z) (average : Qc).

Section Ddpg.
Context {E N A : Type} (envops : EnvOps E) (noiseops : NoiseOps N)
        (agentops : AgentOps A).

(** The variables of the loop. *)
Record run := mkRun {
  r_env : E;
  r_noise : N;
  r_agent : A;
  r_scores : list Qc;
  r_scores_window : list Qc;
  r_out : list printed
}.

(** The body of [for step in range(max_t)], for the [fuel] steps that
    are left from [step] on. *)
Fixpoint episode_steps (fuel step : nat) (env : E) (noise : N) (agent : A)
    (state : tensor) (score : Qc) : E * N * A * Qc :=
  match fuel with
  | O => (env, noise, agent, score)
  | S fuel =>
      let '(agent, action) := agent_act agentops agent state in
      let '(noise, action) := get_action noiseops noise action step in
      let '(env, (next_state, reward, done)) := env_step envops env action in
      let agent := agent_step agentops agent state action reward next_state done in
      let state := next_state in
      let score := (score + reward)%Qc in
      if done then (env, noise, agent, score)
      else episode_steps fuel (S step) env noise agent state score
  end.

(** One episode: reset, then the steps; the score of the episode. *)
Definition episode (max_t : nat) (env : E) (noise : N) (agent : A)
    : E * N * A * Qc :=
  let '(env, state) := env_reset envops env in
  let noise := noise_reset noiseops noise in
  let score := 0%Qc in
  episode_steps max_t 0 env noise agent state score.

(** The body of [for i_episode in range(1, n_episodes+1)], for the
    [fuel] episodes that are left from [i_episode] on. *)
Fixpoint episodes (max_t fuel i_episode : nat) (r : run) : run :=
  match fuel with
  | O => r
  | S fuel =>
      let '(env, noise, agent, score) :=
        episode max_t (r_env r) (r_noise r) (r_agent r) in
      let scores_window := deque_append 100 (r_scores_window r) score in
      let scores := r_scores r ++ [score] in
      let out := r_out r ++ [Progress i_episode (qmean scores_window)] in
      let out :=
        if decide (i_episode mod 100 = 0)
        then out ++ [ProgressKept i_episode (qmean scores_window)]
        else out in
      if decide (Qc_of_Z 30 ≤ qmean scores_window)%Qc then
        let out :=
          out ++ [Solved (Z.of_nat i_episode - 100) (qmean scores_window)] in
        let agent := agent_save_model agentops agent in
        mkRun env noise agent scores scores_window out
      else
        episodes max_t fuel (S i_episode)
                 (mkRun env noise agent scores scores_window out)
  end.

(** [ddpg]: the list [scores] it returns is [r_scores]. *)
Definition ddpg (env : E) (agent : A) (action_size n_episodes max_t : nat)
    : run :=
  let r := mkRun env (noise_new noiseops action_size) agent [] [] [] in
  let r := episodes max_t n_episodes 1 r in
  mkRun (env_close envops (r_env r)) (r_noise r) (r_agent r) (r_scores r)
        (r_scores_window r) (r_out r).

End Ddpg.

Arguments r_env {E N A}.
Arguments r_noise {E N A}.
Arguments r_agent {E N A}.
Arguments r_scores {E N A}.
Arguments r_scores_window {E N A}.
Arguments r_out {E N A}.

(** ** Stubs and instances used to run the definitions *)

Module Stub.

(** An environment whose episodes end after exactly [n] steps, every step
    with the reward [r]; its state is the number of steps of the episode. *)
Definition env (n : nat) (r : Qc) : EnvOps nat :=
  mkEnvOps nat
    (fun _ => (0, []))
    (fun k _ => (S k, ([], r, bool_decide (n <= S k))))
    (fun k => k).

(** A noise process that adds nothing. *)
Definition noise : NoiseOps unit :=
  mkNoiseOps unit (fun _ => tt) (fun n => n) (fun n a _ => (n, a)).

(** An agent that only counts the calls it receives. *)
Record calls := mkCalls {
  act_calls : nat;
  step_calls : nat;
  save_calls : nat
}.

Definition agent : AgentOps calls :=
  mkAgentOps calls
    (fun c _ => (mkCalls (S (act_calls c)) (step_calls c) (save_calls c), [[]]))
    (fun c _ _ _ _ _ => mkCalls (act_calls c) (S (step_calls c)) (save_calls c))
    (fun c => mkCalls (act_calls c) (step_calls c) (S (save_calls c))).

Definition no_calls : calls := mkCalls 0 0 0.

(** Networks with one weight each, the [k]-th one constructed with the
    weight [k + 1].  The actor answers every state with the one-component
    action [w * sum(state)], the critic every pair with its weight; the
    gradients are constant and the optimizer is a plain descent step. *)
Definition weight (p : params) : Qc := default 0%Qc (head (default [] (head p))).

Definition backend : Backend :=
  mkBackend unit
    (fun _ _ _ k => [[Qc_of_Z (Z.of_nat (S k))]])
    (fun _ _ _ k => [[Qc_of_Z (Z.of_nat (S k))]])
    (fun _ => tt)
    (fun _ p xs => map (fun x => [(weight p * qsum x)%Qc]) xs)
    (fun p xs _ => map (fun _ => weight p) xs)
    (fun _ p _ _ => map (map (fun _ => 1%Qc)) p)
    (fun _ _ q _ => map (map (fun _ => 1%Qc)) q)
    (fun q _ _ _ => map (map (fun _ => (-1)%Qc)) q)
    (fun o p g => (padd p g, o)).

Definition settings : Settings :=
  mkSettings 4 2 2 (Qc_of_Z 1) (Q2Qc (1 # 2)).

(** A file system in which a file has one name, the names for which
    [writable] holds being the ones that can be written (the ones whose
    directory is there). *)
Definition disk (writable : string -> bool) : FileSystem :=
  mkFileSystem (gmap string params)
    (fun p f fs => if writable f then Some (<[f := p]> fs) else None)
    (fun f fs => fs !! f).

(** A directory [./checkpoints] that is there, and no other. *)
Definition checkpoints_only (f : string) : bool :=
  bool_decide (f = "./checkpoints/actor.pt" \/ f = "./checkpoints/critic.pt").

(** The agent of the examples after one learning update. *)
Definition learned_agent : Agent.t backend :=
  Agent.learn settings backend (Agent.init settings backend 1 1 0)
    (ReplayBuffer.stack
       [mkExperience [1%Qc] [[1%Qc]] (Q2Qc (1 # 2)) [Qc_of_Z 2] true])
    (GAMMA settings).

End Stub.

(** A mini-batch of two terminal transitions. *)
Definition terminal_batch : Batch :=
  ReplayBuffer.stack
    [mkExperience [1%Qc] [[1%Qc]] (Q2Qc (1 # 2)) [Qc_of_Z 2] true;
     mkExperience [Qc_of_Z 2] [[0%Qc]] (Qc_of_Z 3) [0%Qc] true].

(** Parameter sets for the examples: a target and a live network with two
    tensors each. *)
Definition target_example : params :=
  [[Qc_of_Z 4; 0%Qc]; [Qc_of_Z (-2)]].
Definition live_example : params :=
  [[0%Qc; Qc_of_Z 8]; [Qc_of_Z 2]].

(** An agent over the one-weight networks whose live networks hold
    [live_example] and whose target networks hold [target_example]. *)
Definition example_agent : Agent.t Stub.backend :=
  Agent.mk Stub.backend 2 1 live_example target_example live_example
    target_example true (zeros_like live_example) (zeros_like live_example)
    tt tt (ReplayBuffer.init 4 1) 0.

(** Three experience records, told apart by their rewards. *)
Definition exp1 : Experience := mkExperience [0%Qc] [[0%Qc]] (Qc_of_Z 1) [1%Qc] false.
Definition exp2 : Experience := mkExperience [1%Qc] [[0%Qc]] (Qc_of_Z 2) [1%Qc] false.
Definition exp3 : Experience := mkExperience [1%Qc] [[1%Qc]] (Qc_of_Z 3) [0%Qc] true.

(** ** Sequences of [Agent.step] calls *)

(** The arguments of one call, with the draws of the random generator
    that a [sample()] in that call would use. *)
Record call := mkCall {
  c_state : tensor;
  c_action : batch2d;
  c_reward : Qc;
  c_next_state : tensor;
  c_done : bool;
  c_rnd : nat -> nat
}.

(** One line of the history of a run: the agent before the call, the
    call, the agent after it and what the call did. *)
Record stepped (net : Backend) := mkStepped {
  s_before : Agent.t net;
  s_call : call;
  s_after : Agent.t net;
  s_events : list (Agent.event)
}.

Arguments mkStepped {net}.
Arguments s_before {net}.
Arguments s_call {net}.
Arguments s_after {net}.
Arguments s_events {net}.

Definition step_call (cfg : Settings) (net : Backend) (a : Agent.t net)
    (c : call) : option (Agent.t net * list Agent.event) :=
  Agent.step cfg net a (c_state c) (c_action c) (c_reward c) (c_next_state c)
             (c_done c) (c_rnd c).

Fixpoint run_steps (cfg : Settings) (net : Backend) (a : Agent.t net)
    (calls : list call) : option (Agent.t net * list (stepped net)) :=
  match calls with
  | [] => Some (a, [])
  | c :: calls =>
      '(a1, evs) ← step_call cfg net a c;
      '(a2, history) ← run_steps cfg net a1 calls;
      Some (a2, mkStepped a c a1 evs :: history)
  end.

(** The record that a call stores, and the agent a call leaves when it
    does nothing else. *)
Definition stored (net : Backend) (a : Agent.t net) (c : call) : ReplayBuffer.t :=
  ReplayBuffer.add (Agent.memory net a) (c_state c) (c_action c) (c_reward c)
                   (c_next_state c) (c_done c).

Definition stored_only (cfg : Settings) (net : Backend) (a : Agent.t net)
    (c : call) : Agent.t net :=
  Agent.set_memory net a (stored net a c)
    ((Agent.t_step net a + 1) mod UPDATE_EVERY cfg).

(** What the specification asks of one line of a history. *)
Definition guarded (cfg : Settings) (net : Backend) (s : stepped net) : Prop :=
  let m := stored net (s_before s) (s_call s) in
  Agent.memory net (s_after s) = m
  /\ Agent.t_step net (s_after s)
     = (Agent.t_step net (s_before s) + 1) mod UPDATE_EVERY cfg
  /\ (forall ev, ev ∈ s_events s ->
        Agent.t_step net (s_after s) = 0
        /\ BATCH_SIZE cfg < ReplayBuffer.len m
        /\ match ev with
           | Agent.Sampled b =>
               b = m /\ ReplayBuffer.batch_size b < ReplayBuffer.len b
           | Agent.Learned _ => True
           end)
  /\ (Agent.t_step net (s_after s) <> 0 \/ ReplayBuffer.len m <= BATCH_SIZE cfg ->
      s_events s = [] /\ s_after s = stored_only cfg net (s_before s) (s_call s)).

(** Four calls of [Agent.step], the generator drawing 0, 1, 2, ... *)
Definition example_call (r : Z) (d : bool) : call :=
  mkCall [1%Qc] [[0%Qc]] (Qc_of_Z r) [1%Qc] d (fun i => i).

Definition example_calls : list call :=
  [example_call 1 false; example_call 2 false; example_call 3 false;
   example_call 4 true].

(** The default values of [n_episodes] and [max_t] in [ddpg]. *)
Definition default_n_episodes : nat := 2 * 1000.
Definition default_max_t : nat := 10 * 1000.

(** A score generator: every episode is one step with the reward 35.0. *)
Definition constant_35 : EnvOps nat := Stub.env 1 (Qc_of_Z 35).

(** The gradients of the two losses of a call of [learn], each in the
    parameters of the network whose optimizer applies it. *)
Definition learn_g_actor (net : Backend) (a : Agent.t net)
    (experiences : Batch) : params :=
  grad_policy_actor net (Agent.actor_training net a) (Agent.actor net a)
    (Agent.critic net a) (b_states experiences).

Definition learn_g_critic (net : Backend) (a : Agent.t net)
    (experiences : Batch) (gamma : Qc) : params :=
  grad_critic_loss net (Agent.critic net a) (b_states experiences)
    (b_actions experiences) (Agent.learn_target net a experiences gamma).

(** The record a call of [Agent.step] stores. *)
Definition record_of (c : call) : Experience :=
  mkExperience (c_state c) (c_action c) (c_reward c) (c_next_state c)
               (c_done c).

(** A record of an environment whose observations have [state_size]
    components and whose actions [action_size]. *)
Definition shaped (state_size action_size : nat) (e : Experience) : Prop :=
  length (state e) = state_size
  /\ Forall (fun row => length row = action_size) (action e)
  /\ length (next_state e) = state_size.

(** Settings with a buffer that holds no more than one batch. *)
Definition small_buffer_settings : Settings :=
  mkSettings 2 2 1 (Qc_of_Z 1) (Q2Qc (1 # 2)).

(** The default values of [checkpoint_path] in [save_model] and in
    [load_model]. *)
Definition save_model_default : string := "./checkpoints/".
Definition load_model_default : string := "./checkpoints/checkpoint.pt".

(** The example agent three calls into a run: its buffer holds three
    records and its counter is at 1. *)
Definition warm_agent : Agent.t Stub.backend :=
  match run_steps Stub.settings Stub.backend
          (Agent.init Stub.settings Stub.backend 1 1 0)
          (take 3 example_calls) with
  | Some (a, _) => a
  | None => Agent.init Stub.settings Stub.backend 1 1 0
  end.

(** Floats for the examples: the Python scalars 0.99 and 0.5, and the
    binary32 numbers 0.5, 2, 3, 4, -7 and [1 + 2^-23], the one that
    follows 1. *)
Definition gamma_099 : spec_float := Float64.make 8917127262193582 (-53).
Definition f_half : spec_float := Float32.make 1 (-1).
Definition f_two : spec_float := Float32.make 2 0.
Definition f_three : spec_float := Float32.make 3 0.
Definition f_minus_seven : spec_float := Float32.make (-7) 0.


(** The closing message among what [ddpg] prints. *)
Definition is_solved (p : printed) : bool :=
  match p with
  | Solved _ _ => true
  | Progress _ _ | ProgressKept _ _ => false
  end.

(** * Properties *)

(** ** Tensors *)

Local Open Scope Qc_scope.

Lemma tadd_length (x y : tensor) :
  length y = length x -> length (tadd x y) = length x.
Proof.
  intros H. unfold tadd. rewrite length_zip_with. lia.
Qed.

Lemma tadd_zeros (x g : tensor) :
  length g = length x -> tadd (map (fun _ => 0) x) g = g.
Proof.
  revert g. induction x as [|x0 x IH]; intros [|g0 g] H; simpl in *;
    try discriminate; [done|].
  unfold tadd in IH. rewrite IH by lia. by rewrite Qcplus_0_l.
Qed.

Lemma padd_zeros (p g : params) :
  shape g = shape p -> padd (zeros_like p) g = g.
Proof.
  revert g. induction p as [|x p IH]; intros [|y g] H; simpl in *;
    try discriminate; [done|].
  injection H as H1 H2. unfold padd in IH.
  rewrite tadd_zeros by done. by rewrite IH.
Qed.

(** ** The shapes a soft update keeps *)

Lemma soft_mix_length (tau : Qc) (t l : tensor) :
  length t = length l -> length (soft_mix tau t l) = length t.
Proof.
  intros H. unfold soft_mix, tadd, tscale.
  rewrite length_zip_with, !length_map. lia.
Qed.

Lemma soft_update_shape (tau : Qc) (target live : params) :
  shape target = shape live -> shape (soft_update tau target live) = shape live.
Proof.
  revert live. induction target as [|t target IH]; intros [|l live] H;
    simpl in *; try discriminate; [done|].
  injection H as H1 H2. f_equal.
  - rewrite soft_mix_length; done.
  - by apply IH.
Qed.

Local Close Scope Qc_scope.

(** ** The target of the critic, in floats *)

Lemma Q_prime_lookup (gamma : spec_float)
    (rewards next_Q mask : list spec_float) (i : nat) (r q m : spec_float) :
  rewards !! i = Some r -> next_Q !! i = Some q -> mask !! i = Some m ->
  Float32.Q_prime gamma rewards next_Q mask !! i
  = Some (Float32.add r
            (Float32.mul (Float32.mul (Float32.of_double gamma) q) m)).
Proof.
  intros Hr Hq Hm. unfold Float32.Q_prime.
  rewrite lookup_zip_with, Hr. simpl.
  rewrite lookup_zip_with, list_lookup_fmap, Hq. simpl. by rewrite Hm.
Qed.

Lemma Q_prime_length (gamma : spec_float)
    (rewards next_Q mask : list spec_float) :
  length next_Q = length rewards -> length mask = length rewards ->
  length (Float32.Q_prime gamma rewards next_Q mask) = length rewards.
Proof.
  intros Hq Hm. unfold Float32.Q_prime.
  rewrite !length_zip_with, length_map. lia.
Qed.

(** The mask of a terminal transition is [+0.0]. *)
Lemma mask_terminal : Float32.sub Float32.one Float32.one = S754_zero false.
Proof. reflexivity. Qed.

(** A finite number times a zero is a zero; a sum with a zero is the other
    term, but for [-0.0 + +0.0], which is [+0.0]. *)
Lemma mul_zero_finite (x : spec_float) (s : bool) :
  is_finite x = true -> exists s', Float32.mul x (S754_zero s) = S754_zero s'.
Proof.
  destruct x; simpl; try discriminate; intros _; by eexists.
Qed.

Lemma add_zero (r : spec_float) (s : bool) :
  Float32.add r (S754_zero s) = r
  \/ (r = S754_zero true /\ Float32.add r (S754_zero s) = S754_zero false).
Proof.
  destruct r as [[]| | |]; destruct s; simpl; auto.
Qed.

(** C1.  In [Agent.learn] the target of the critic is, row by row,
    [R + (gamma * next_Q) * (1 - D)] in float32 arithmetic, where
    [next_Q] is the value the target critic gives to the next states and
    to the actions the target actor takes there (one value per row).  For
    a mini-batch whose terminal flags are all true, and a target critic
    whose values, multiplied by [gamma], are finite numbers, every row of
    the target is the reward of the row ([-0.0] being given as [+0.0]):
    the target is the vector of rewards itself when no reward is
    [-0.0]. *)
Theorem learn_target_terminal
    (actor_target : list (list spec_float) -> list (list spec_float))
    (critic_target : list (list spec_float) -> list (list spec_float)
                     -> list spec_float)
    (rewards : list spec_float) (next_states : list (list spec_float))
    (dones : list spec_float) (gamma : spec_float) :
  let next_Q := critic_target next_states (actor_target next_states) in
  let target :=
    Float32.learn_target actor_target critic_target rewards next_states dones
                         gamma in
  length next_Q = length rewards ->
  length dones = length rewards ->
  length target = length rewards
  /\ (forall i r q d,
        rewards !! i = Some r -> next_Q !! i = Some q -> dones !! i = Some d ->
        target !! i
        = Some (Float32.add r
                  (Float32.mul (Float32.mul (Float32.of_double gamma) q)
                               (Float32.sub Float32.one d))))
  /\ (Forall (fun d => d = Float32.one) dones ->
      Forall (fun q =>
                is_finite (Float32.mul (Float32.of_double gamma) q) = true)
             next_Q ->
      (forall i r, rewards !! i = Some r ->
         exists t, target !! i = Some t
                   /\ (t = r \/ (r = S754_zero true /\ t = S754_zero false)))
      /\ (Forall (fun r => r <> S754_zero true) rewards -> target = rewards)).
Proof.
  intros next_Q target Hq Hd.
  assert (length target = length rewards) as Hlen.
  { unfold target, Float32.learn_target. apply Q_prime_length; [done|].
    by rewrite length_map. }
  assert (forall i r q d,
            rewards !! i = Some r -> next_Q !! i = Some q ->
            dones !! i = Some d ->
            target !! i
            = Some (Float32.add r
                      (Float32.mul (Float32.mul (Float32.of_double gamma) q)
                                   (Float32.sub Float32.one d)))) as Hrow.
  { intros i r q d Hr Hq' Hd'. unfold target, Float32.learn_target.
    apply Q_prime_lookup; [done|done|]. by rewrite list_lookup_fmap, Hd'. }
  split; [done|]. split; [done|]. intros Hdones Hfin.
  assert (forall i r, rewards !! i = Some r ->
            exists t, target !! i = Some t
                      /\ (t = r \/ (r = S754_zero true /\ t = S754_zero false)))
    as Hrows.
  { intros i r Hr.
    destruct (lookup_lt_is_Some_2 next_Q i) as [q Hq'].
    { rewrite Hq. by eapply lookup_lt_Some. }
    destruct (lookup_lt_is_Some_2 dones i) as [d Hd'].
    { rewrite Hd. by eapply lookup_lt_Some. }
    rewrite (Hrow i r q d Hr Hq' Hd').
    rewrite (proj1 (Forall_lookup _ _) Hdones _ _ Hd'), mask_terminal.
    destruct (mul_zero_finite _ false
                (proj1 (Forall_lookup _ _) Hfin _ _ Hq')) as [s' ->].
    eexists. split; [done|].
    destruct (add_zero r s') as [->|[-> ->]]; auto. }
  split; [done|]. intros Hnz. apply list_eq. intros i.
  destruct (rewards !! i) as [r|] eqn:Hr.
  - destruct (Hrows i r Hr) as (t & -> & [->|[-> _]]); [done|].
    by destruct (proj1 (Forall_lookup _ _) Hnz _ _ Hr).
  - apply lookup_ge_None. apply lookup_ge_None in Hr. lia.
Qed.

(** Two terminal transitions with the rewards 0.5 and 3, a target critic
    that answers 2 and -7, and the discount 0.99. *)
Lemma learn_target_terminal_witness :
  Float32.learn_target (fun _ => [[]; []]) (fun _ _ => [f_two; f_minus_seven])
    [f_half; f_three] [[]; []] [Float32.one; Float32.one] gamma_099
  = [f_half; f_three].
Proof.
  destruct (learn_target_terminal (fun _ => [[]; []])
              (fun _ _ => [f_two; f_minus_seven]) [f_half; f_three] [[]; []]
              [Float32.one; Float32.one] gamma_099 eq_refl eq_refl)
    as (_ & _ & H).
  destruct H as [_ H]; [by repeat constructor | by repeat constructor |].
  apply H. by repeat constructor.
Defined.

(** A terminal transition with the reward 1, for which the target critic
    answers [+inf]: the target is NaN, and not the reward. *)
Lemma learn_target_terminal_counterexample :
  Forall (fun d => d = Float32.one) [Float32.one]
  /\ Float32.learn_target (fun _ => [[]]) (fun _ _ => [S754_infinity false])
       [Float32.one] [[]] [Float32.one] gamma_099
     = [S754_nan]
  /\ Float32.learn_target (fun _ => [[]]) (fun _ _ => [S754_infinity false])
       [Float32.one] [[]] [Float32.one] gamma_099
     <> [Float32.one].
Proof.
  split; [by repeat constructor|]. split; [reflexivity|discriminate].
Qed.

(** ** The soft update, in floats *)











(** ** The replay buffer *)

Lemma deque_append_length {A} (maxlen : nat) (d : list A) (x : A) :
  length d <= maxlen -> length (deque_append maxlen d x) <= maxlen.
Proof.
  intros H. unfold deque_append. case_decide as Hlen.
  - destruct d; simpl in *; [lia|]. rewrite length_app. simpl. lia.
  - lia.
Qed.

Lemma tail_drop {A} (n : nat) (l : list A) : tail (drop n l) = drop (S n) l.
Proof.
  revert n. induction l as [|y l IH]; intros [|n]; simpl; done.
Qed.

(** A deque that holds the last [maxlen] items of a history still does so
    after an [append]. *)
Lemma deque_append_drop {A} (maxlen : nat) (xs : list A) (x : A) :
  deque_append maxlen (drop (length xs - maxlen) xs) x
  = drop (length (xs ++ [x]) - maxlen) (xs ++ [x]).
Proof.
  unfold deque_append. rewrite !length_app, length_drop. simpl.
  case_decide as Hlen.
  - replace (length xs + 1 - maxlen) with (S (length xs - maxlen)) by lia.
    rewrite <- drop_app_le by lia. apply tail_drop.
  - replace (length xs + 1 - maxlen) with 0 by lia.
    replace (length xs - maxlen) with 0 by lia. done.
Qed.

Lemma add_all_memory (b : ReplayBuffer.t) (es : list Experience) :
  ReplayBuffer.buffer_size (ReplayBuffer.add_all b es) = ReplayBuffer.buffer_size b
  /\ ReplayBuffer.batch_size (ReplayBuffer.add_all b es) = ReplayBuffer.batch_size b
  /\ (ReplayBuffer.memory b = [] ->
      ReplayBuffer.memory (ReplayBuffer.add_all b es)
      = drop (length es - ReplayBuffer.buffer_size b) es).
Proof.
  induction es as [|e es IH] using rev_ind.
  - simpl. by repeat split.
  - unfold ReplayBuffer.add_all in *. rewrite foldl_app. simpl.
    destruct IH as (IH1 & IH2 & IH3). repeat split; try done.
    intros Hnil. rewrite (IH3 Hnil), IH1. destruct e.
    apply deque_append_drop.
Qed.

(** What [random.sample] returns is taken from the population, every item
    at most as often as it is there. *)
Lemma random_pick_submseteq {A} (pool : list A) (k : nat) (rnd : nat -> nat)
    (i : nat) :
  random_pick pool k rnd i ⊆+ pool.
Proof.
  revert pool i. induction k as [|k IH]; intros pool i; simpl.
  - apply submseteq_nil_l.
  - destruct (pool !! (rnd i mod length pool)) as [x|] eqn:Hx.
    + etrans; [apply submseteq_skip, IH|].
      apply Permutation_submseteq. symmetry. by apply delete_Permutation.
    + apply submseteq_nil_l.
Qed.

Lemma random_pick_length {A} (pool : list A) (k : nat) (rnd : nat -> nat)
    (i : nat) :
  k <= length pool -> length (random_pick pool k rnd i) = k.
Proof.
  revert pool i. induction k as [|k IH]; intros pool i Hk; simpl; [done|].
  destruct (lookup_lt_is_Some_2 pool (rnd i mod length pool)) as [x Hx].
  { apply Nat.mod_upper_bound. lia. }
  rewrite Hx. simpl. f_equal. apply IH.
  rewrite length_delete by eauto. lia.
Qed.

Lemma random_sample_spec {A} (population : list A) (k : nat)
    (rnd : nat -> nat) (drawn : list A) :
  random_sample population k rnd = Some drawn ->
  drawn ⊆+ population /\ length drawn = k.
Proof.
  unfold random_sample. case_decide as Hk; [|done]. intros [= <-].
  split; [apply random_pick_submseteq | by apply random_pick_length].
Qed.

(** What [sample()] returns is the stack of the records it drew, which
    were at least one and could be stacked. *)
Lemma sample_inv (b : ReplayBuffer.t) (rnd : nat -> nat) (batch : Batch) :
  ReplayBuffer.sample b rnd = Some batch ->
  exists drawn,
    ReplayBuffer.draw b rnd = Some drawn
    /\ drawn <> []
    /\ ReplayBuffer.stackable drawn = true
    /\ batch = ReplayBuffer.stack drawn.
Proof.
  unfold ReplayBuffer.sample. intros Hs.
  destruct (ReplayBuffer.draw b rnd) as [drawn|]; [|done]. simpl in Hs.
  destruct (ReplayBuffer.stackable drawn) eqn:Hst; [|done].
  injection Hs as <-. exists drawn. split; [done|]. split; [|done].
  by intros ->.
Qed.

Lemma same_width_Forall {A} (n : nat) (rows : list (list A)) :
  Forall (fun row => length row = n) rows ->
  ReplayBuffer.same_width rows = true.
Proof.
  intros H. destruct rows as [|r rows]; [done|]. simpl.
  apply Forall_cons in H as [Hr H]. apply forallb_forall.
  intros x Hx. apply Nat.eqb_eq. rewrite Hr.
  apply (proj1 (Forall_forall _ _) H). by apply list_elem_of_In.
Qed.

(** Records of one environment can be stacked. *)
Lemma stackable_shaped (state_size action_size : nat)
    (experiences : list Experience) :
  experiences <> [] ->
  Forall (shaped state_size action_size) experiences ->
  ReplayBuffer.stackable experiences = true.
Proof.
  intros Hne H. unfold ReplayBuffer.stackable.
  destruct experiences as [|e es] eqn:Hes; [done|]. rewrite <- Hes in *.
  clear Hes Hne.
  rewrite (same_width_Forall state_size), (same_width_Forall action_size),
    (same_width_Forall state_size); [done| | |].
  - apply Forall_fmap. eapply Forall_impl; [exact H|]. by intros x (_ & _ & ?).
  - apply Forall_concat, Forall_fmap.
    eapply Forall_impl; [exact H|]. by intros x (_ & ? & _).
  - apply Forall_fmap. eapply Forall_impl; [exact H|]. by intros x (? & _ & _).
Qed.

Lemma deque_append_Forall {A} (P : A -> Prop) (maxlen : nat) (d : list A)
    (x : A) :
  Forall P d -> P x -> Forall P (deque_append maxlen d x).
Proof.
  intros Hd Hx. unfold deque_append.
  assert (Forall P (d ++ [x])) as H by (apply Forall_app; by repeat constructor).
  case_decide; [|done]. destruct (d ++ [x]); [done|].
  by apply Forall_cons in H as [_ ?].
Qed.

(** C6.  After any sequence of [add] calls on a new buffer ([add] is a
    total function: it has no error case), the buffer holds at most
    [buffer_size] records, namely the last [buffer_size] ones that were
    added, in their order.  Whatever the random generator draws, a sample
    is made of records that are in the buffer (each no more often than it
    is there), so once more records were added than the buffer can hold,
    the record added first is in no sample. *)
Theorem replay_buffer_capacity (buffer_size batch_size : nat)
    (es : list Experience) :
  let b := ReplayBuffer.add_all (ReplayBuffer.init buffer_size batch_size) es in
  ReplayBuffer.len b <= buffer_size
  /\ ReplayBuffer.memory b = drop (length es - buffer_size) es
  /\ (forall rnd batch,
        ReplayBuffer.sample b rnd = Some batch ->
        exists drawn,
          batch = ReplayBuffer.stack drawn
          /\ drawn ⊆+ drop (length es - buffer_size) es
          /\ length drawn = batch_size)
  /\ (buffer_size < length es -> NoDup es ->
      forall e0 rnd drawn,
        head es = Some e0 -> ReplayBuffer.draw b rnd = Some drawn ->
        e0 ∉ drawn).
Proof.
  intros b.
  destruct (add_all_memory (ReplayBuffer.init buffer_size batch_size) es)
    as (Hcap & Hbs & Hmem).
  fold b in Hcap, Hbs, Hmem. simpl in Hcap, Hbs, Hmem.
  specialize (Hmem eq_refl).
  assert (forall rnd drawn, ReplayBuffer.draw b rnd = Some drawn ->
            drawn ⊆+ drop (length es - buffer_size) es
            /\ length drawn = batch_size) as Hdraw.
  { intros rnd drawn Hd. unfold ReplayBuffer.draw in Hd.
    rewrite Hmem, Hbs in Hd. by apply random_sample_spec in Hd. }
  split; [|split; [done|split]].
  - unfold ReplayBuffer.len. rewrite Hmem, length_drop. lia.
  - intros rnd batch Hs.
    destruct (sample_inv b rnd batch Hs) as (drawn & Hd & _ & _ & ->).
    exists drawn. split; [done|]. by eapply Hdraw.
  - intros Hfull Hnd e0 rnd drawn Hhd Hd Hin.
    destruct (Hdraw _ _ Hd) as [Hsub _].
    pose proof (elem_of_submseteq _ _ _ Hin Hsub) as Hmemb.
    destruct es as [|e es']; [done|]. injection Hhd as ->.
    apply NoDup_cons in Hnd as [Hnotin _]. apply Hnotin.
    simpl in Hfull, Hmemb.
    replace (S (length es') - buffer_size) with (S (length es' - buffer_size))
      in Hmemb by lia.
    simpl in Hmemb. by eapply subseteq_drop.
Qed.

(** Two of the example records are told apart by their rewards. *)
Ltac by_reward H :=
  apply (f_equal (fun e => Qnum (this (reward e)))) in H;
  vm_compute in H; discriminate H.

Lemma replay_buffer_capacity_witness :
  ReplayBuffer.draw
    (ReplayBuffer.add_all (ReplayBuffer.init 2 1) [exp1; exp2; exp3])
    (fun i => i)
  = Some [exp2]
  /\ exp1 ∉ [exp2].
Proof.
  split; [reflexivity|].
  apply (replay_buffer_capacity 2 1 [exp1; exp2; exp3])
    with (rnd := fun i => i).
  - simpl. lia.
  - repeat (apply NoDup_cons_2); try apply NoDup_nil_2;
      rewrite ?elem_of_cons, elem_of_nil; intros H;
      repeat (destruct H as [H|H]; [by_reward H|]); exact H.
  - reflexivity.
  - reflexivity.
Defined.

(** A buffer for two records after three [add] calls. *)
Example replay_buffer_three_adds :
  ReplayBuffer.memory
    (ReplayBuffer.add_all (ReplayBuffer.init 2 1) [exp1; exp2; exp3])
  = [exp2; exp3].
Proof. reflexivity. Qed.

(** ** The schedule of [Agent.step] *)

Section StepGuard.
Context (cfg : Settings) (net : Backend).

Lemma learn_frame (a : Agent.t net) (experiences : Batch) (gamma : Qc) :
  Agent.memory net (Agent.learn cfg net a experiences gamma) = Agent.memory net a
  /\ Agent.t_step net (Agent.learn cfg net a experiences gamma)
     = Agent.t_step net a.
Proof.
  unfold Agent.learn, Agent.gradient_steps, Agent.learn_critic_update,
    Agent.learn_actor_update, Agent.critic_optimizer_step,
    Agent.actor_optimizer_step.
  repeat (destruct (adam_step net _ _ _); simpl). done.
Qed.

Lemma sample_some (state_size action_size : nat) (m : ReplayBuffer.t)
    (rnd : nat -> nat) :
  0 < ReplayBuffer.batch_size m ->
  ReplayBuffer.batch_size m <= ReplayBuffer.len m ->
  Forall (shaped state_size action_size) (ReplayBuffer.memory m) ->
  exists batch, ReplayBuffer.sample m rnd = Some batch.
Proof.
  intros H0 H Hshaped. unfold ReplayBuffer.sample.
  destruct (ReplayBuffer.draw m rnd) as [drawn|] eqn:Hd.
  - unfold ReplayBuffer.draw in Hd.
    apply random_sample_spec in Hd as [Hsub Hlen]. simpl.
    rewrite (stackable_shaped state_size action_size); [by eexists| |].
    + intros ->. simpl in Hlen. lia.
    + apply Forall_forall. intros e He.
      apply (proj1 (Forall_forall _ _) Hshaped). by eapply elem_of_submseteq.
  - unfold ReplayBuffer.draw, random_sample in Hd.
    fold (ReplayBuffer.len m) in Hd. by rewrite decide_True in Hd.
Qed.

Lemma sample_batch_zero (m : ReplayBuffer.t) (rnd : nat -> nat) :
  ReplayBuffer.batch_size m = 0 -> ReplayBuffer.sample m rnd = None.
Proof.
  intros H. unfold ReplayBuffer.sample, ReplayBuffer.draw, random_sample.
  rewrite H. case_decide; done.
Qed.

(** A call whose guard fails stores its record and returns. *)
Lemma step_call_skips (a : Agent.t net) (c : call) :
  UPDATE_EVERY cfg <> 0 ->
  (Agent.t_step net a + 1) mod UPDATE_EVERY cfg <> 0
  \/ ReplayBuffer.len (stored net a c) <= BATCH_SIZE cfg ->
  step_call cfg net a c = Some (stored_only cfg net a c, []).
Proof.
  intros HU Hskip. unfold step_call, Agent.step.
  rewrite decide_False by done. fold (stored net a c).
  case_decide as Hn; [case_decide as Hlen|]; try done.
  destruct Hskip; [done|lia].
Qed.

(** A call whose guard holds is a call of [sample()] and of [learn]. *)
Lemma step_call_learns (a : Agent.t net) (c : call) :
  UPDATE_EVERY cfg <> 0 ->
  (Agent.t_step net a + 1) mod UPDATE_EVERY cfg = 0 ->
  BATCH_SIZE cfg < ReplayBuffer.len (stored net a c) ->
  step_call cfg net a c
  = (batch ← ReplayBuffer.sample (stored net a c) (c_rnd c);
     Some (Agent.learn cfg net (stored_only cfg net a c) batch (GAMMA cfg),
           [Agent.Sampled (stored net a c); Agent.Learned batch])).
Proof.
  intros HU Hn Hlen. unfold step_call, Agent.step.
  rewrite decide_False by done. fold (stored net a c).
  by rewrite !decide_True.
Qed.

Lemma step_call_safe (a a1 : Agent.t net) (c : call)
    (evs : list Agent.event) :
  ReplayBuffer.batch_size (Agent.memory net a) = BATCH_SIZE cfg ->
  step_call cfg net a c = Some (a1, evs) ->
  guarded cfg net (mkStepped a c a1 evs)
  /\ ReplayBuffer.batch_size (Agent.memory net a1) = BATCH_SIZE cfg.
Proof.
  intros Hbs Hstep.
  assert (UPDATE_EVERY cfg <> 0) as HU.
  { intros HU. unfold step_call, Agent.step in Hstep.
    by rewrite decide_True in Hstep. }
  set (m := stored net a c).
  set (n := (Agent.t_step net a + 1) mod UPDATE_EVERY cfg).
  assert (ReplayBuffer.batch_size m = BATCH_SIZE cfg) as Hm by done.
  destruct (decide (n = 0 /\ BATCH_SIZE cfg < ReplayBuffer.len m))
    as [[Hn Hlen]|Hskip].
  - rewrite (step_call_learns a c HU Hn Hlen) in Hstep. fold m in Hstep.
    destruct (ReplayBuffer.sample m (c_rnd c)) as [batch|]; [|done].
    simpl in Hstep. injection Hstep as <- <-.
    destruct (learn_frame (stored_only cfg net a c) batch (GAMMA cfg))
      as [Hmem Ht].
    change (Agent.memory net (stored_only cfg net a c)) with m in Hmem.
    change (Agent.t_step net (stored_only cfg net a c)) with n in Ht.
    unfold guarded. cbn [s_before s_call s_after s_events].
    fold m. rewrite Hmem, Ht. fold n.
    split; [|done]. split; [done|]. split; [done|]. split.
    + intros ev Hev. split; [done|]. split; [done|].
      apply elem_of_cons in Hev as [->|Hev]; [split; [done|lia]|].
      apply elem_of_cons in Hev as [->|Hev]; [done|].
      by apply elem_of_nil in Hev.
    + intros [?|?]; [done|lia].
  - rewrite step_call_skips in Hstep.
    + injection Hstep as <- <-. unfold guarded.
      cbn [s_before s_call s_after s_events]. fold m.
      split; [|done]. split; [done|]. split; [done|]. split; [|done].
      intros ev Hev. by apply elem_of_nil in Hev.
    + done.
    + fold m. fold n. destruct (decide (n = 0)); [right; lia|by left].
Qed.

Lemma step_call_returns (state_size action_size : nat) (a : Agent.t net)
    (c : call) :
  UPDATE_EVERY cfg <> 0 -> BATCH_SIZE cfg <> 0 ->
  ReplayBuffer.batch_size (Agent.memory net a) = BATCH_SIZE cfg ->
  Forall (shaped state_size action_size)
         (ReplayBuffer.memory (stored net a c)) ->
  exists a1 evs, step_call cfg net a c = Some (a1, evs).
Proof.
  intros HU HB Hbs Hshaped.
  set (m := stored net a c) in *.
  set (n := (Agent.t_step net a + 1) mod UPDATE_EVERY cfg).
  assert (ReplayBuffer.batch_size m = BATCH_SIZE cfg) as Hm by done.
  destruct (decide (n = 0 /\ BATCH_SIZE cfg < ReplayBuffer.len m))
    as [[Hn Hlen]|Hskip].
  - rewrite (step_call_learns a c HU Hn Hlen). fold m.
    destruct (sample_some state_size action_size m (c_rnd c)) as [batch ->];
      [lia|lia|done|].
    simpl. by eexists _, _.
  - rewrite step_call_skips; [by eexists _, _|done|].
    fold m. fold n. destruct (decide (n = 0)); [right; lia|by left].
Qed.

(** A call raises in one place only: in a [sample()] that was called
    with more records than [BATCH_SIZE] in the buffer. *)
Lemma step_call_raises (a : Agent.t net) (c : call) :
  UPDATE_EVERY cfg <> 0 ->
  step_call cfg net a c = None ->
  (Agent.t_step net a + 1) mod UPDATE_EVERY cfg = 0
  /\ BATCH_SIZE cfg < ReplayBuffer.len (stored net a c)
  /\ ReplayBuffer.sample (stored net a c) (c_rnd c) = None.
Proof.
  intros HU Hnone.
  destruct (decide ((Agent.t_step net a + 1) mod UPDATE_EVERY cfg = 0
                    /\ BATCH_SIZE cfg < ReplayBuffer.len (stored net a c)))
    as [[Hn Hlen]|Hskip].
  - split; [done|]. split; [done|].
    rewrite (step_call_learns a c HU Hn Hlen) in Hnone.
    by destruct (ReplayBuffer.sample (stored net a c) (c_rnd c)).
  - rewrite step_call_skips in Hnone; [done|done|].
    destruct (decide ((Agent.t_step net a + 1) mod UPDATE_EVERY cfg = 0));
      [right; lia|by left].
Qed.

Lemma run_steps_safe (calls : list call) (a a' : Agent.t net)
    (history : list (stepped net)) :
  ReplayBuffer.batch_size (Agent.memory net a) = BATCH_SIZE cfg ->
  run_steps cfg net a calls = Some (a', history) ->
  length history = length calls
  /\ Forall (guarded cfg net) history
  /\ (forall i s, history !! i = Some s ->
        Agent.t_step net (s_after s)
        = (Agent.t_step net a + (i + 1)) mod UPDATE_EVERY cfg)
  /\ ReplayBuffer.batch_size (Agent.memory net a') = BATCH_SIZE cfg.
Proof.
  revert a a' history.
  induction calls as [|c calls IH]; intros a a' history Hbs.
  - simpl. intros [= <- <-]. repeat split; [constructor| |done].
    intros i s Hs. by rewrite lookup_nil in Hs.
  - cbn [run_steps].
    destruct (step_call cfg net a c) as [[a1 evs]|] eqn:Hstep; [|done].
    simpl.
    destruct (run_steps cfg net a1 calls) as [[a2 rest]|] eqn:Hrun; [|done].
    simpl. intros [= <- <-].
    destruct (step_call_safe a a1 c evs Hbs Hstep) as (Hg & Hbs1).
    destruct (IH a1 a2 rest Hbs1 Hrun) as (Hlen & Hall & Hidx & Hbs2).
    split; [simpl; by f_equal|]. split; [by constructor|]. split; [|done].
    destruct Hg as (_ & Ht & _). cbn [s_before s_after] in Ht.
    intros [|i] s Hs; simpl in Hs.
    + injection Hs as <-. cbn [s_after]. by rewrite Ht.
    + rewrite (Hidx i s Hs), Ht, Nat.Div0.add_mod_idemp_l.
      f_equal. lia.
Qed.

Lemma stored_shaped (state_size action_size : nat) (a : Agent.t net)
    (c : call) :
  Forall (shaped state_size action_size)
         (ReplayBuffer.memory (Agent.memory net a)) ->
  shaped state_size action_size (record_of c) ->
  Forall (shaped state_size action_size)
         (ReplayBuffer.memory (stored net a c)).
Proof.
  intros Hm Hc. unfold stored, ReplayBuffer.add. simpl.
  by apply deque_append_Forall.
Qed.

Lemma run_steps_returns (state_size action_size : nat) (calls : list call)
    (a : Agent.t net) :
  UPDATE_EVERY cfg <> 0 -> BATCH_SIZE cfg <> 0 ->
  ReplayBuffer.batch_size (Agent.memory net a) = BATCH_SIZE cfg ->
  Forall (shaped state_size action_size)
         (ReplayBuffer.memory (Agent.memory net a)) ->
  Forall (fun c => shaped state_size action_size (record_of c)) calls ->
  exists a' history, run_steps cfg net a calls = Some (a', history).
Proof.
  intros HU HB. revert a.
  induction calls as [|c calls IH]; intros a Hbs Hm Hcalls.
  - by eexists _, _.
  - cbn [run_steps]. apply Forall_cons in Hcalls as [Hc Hcalls].
    pose proof (stored_shaped state_size action_size a c Hm Hc) as Hm1.
    destruct (step_call_returns state_size action_size a c HU HB Hbs Hm1)
      as (a1 & evs & Hstep).
    rewrite Hstep. simpl.
    destruct (step_call_safe a a1 c evs Hbs Hstep) as ((Hmem & _) & Hbs1).
    cbn [s_after s_before s_call] in Hmem. rewrite <- Hmem in Hm1.
    destruct (IH a1 Hbs1 Hm1 Hcalls) as (a2 & history & ->). simpl.
    by eexists _, _.
Qed.

End StepGuard.

(** C5.  Runs of [Agent.step] calls on a new agent, the update period not
    being zero.  In a run whose calls all return: a call stores its
    record and moves the counter, which after the [i]-th call is [i]
    modulo the period; a call that samples or learns is one at which the
    counter came back to zero and the buffer held more than [BATCH_SIZE]
    records, and the buffer [sample()] was called on holds more records
    than its batch size; a call at which the counter is not zero or the
    buffer holds at most [BATCH_SIZE] records does nothing but store its
    record (and move the counter).  When [BATCH_SIZE] is not zero and the
    records are those of one environment, every call returns.  A call
    that raises does so inside a [sample()] that was called under the same
    guard, with more than [BATCH_SIZE] records in the buffer. *)
Theorem step_guard (cfg : Settings) (net : Backend)
    (state_size action_size seed : nat) (calls : list call) :
  UPDATE_EVERY cfg <> 0 ->
  let a0 := Agent.init cfg net state_size action_size seed in
  (forall a' history,
     run_steps cfg net a0 calls = Some (a', history) ->
     length history = length calls
     /\ Forall (guarded cfg net) history
     /\ (forall i s, history !! i = Some s ->
           Agent.t_step net (s_after s) = (i + 1) mod UPDATE_EVERY cfg))
  /\ (BATCH_SIZE cfg <> 0 ->
      Forall (fun c => shaped state_size action_size (record_of c)) calls ->
      exists a' history, run_steps cfg net a0 calls = Some (a', history))
  /\ (forall a' history c,
        run_steps cfg net a0 calls = Some (a', history) ->
        step_call cfg net a' c = None ->
        (Agent.t_step net a' + 1) mod UPDATE_EVERY cfg = 0
        /\ BATCH_SIZE cfg < ReplayBuffer.len (stored net a' c)
        /\ ReplayBuffer.sample (stored net a' c) (c_rnd c) = None).
Proof.
  intros HU a0. split; [|split].
  - intros a' history Hrun.
    destruct (run_steps_safe cfg net calls a0 a' history eq_refl Hrun)
      as (Hlen & Hall & Hidx & _).
    done.
  - intros HB Hcalls.
    by apply (run_steps_returns cfg net state_size action_size).
  - intros a' history c Hrun Hnone. by apply step_call_raises.
Qed.

Lemma step_guard_witness :
  exists a' history,
    run_steps Stub.settings Stub.backend
      (Agent.init Stub.settings Stub.backend 1 1 0) example_calls
    = Some (a', history)
    /\ length history = length example_calls
    /\ Forall (guarded Stub.settings Stub.backend) history
    /\ (forall i s, history !! i = Some s ->
          Agent.t_step Stub.backend (s_after s)
          = (i + 1) mod UPDATE_EVERY Stub.settings).
Proof.
  destruct (step_guard Stub.settings Stub.backend 1 1 0 example_calls)
    as (Hsafe & Hret & _); [simpl; lia|].
  destruct Hret as (a' & history & Hrun);
    [simpl; lia | by repeat constructor |].
  exists a', history. split; [exact Hrun|]. exact (Hsafe a' history Hrun).
Defined.

(** With an update period of 2 and batches of 2 records, the second call
    does not sample (the buffer holds 2 records, not more) and the fourth
    one does. *)
Example step_guard_four_calls :
  (fun r => map (fun s => length (s_events s)) (snd r))
    <$> run_steps Stub.settings Stub.backend
          (Agent.init Stub.settings Stub.backend 1 1 0) example_calls
  = Some [0; 0; 0; 2].
Proof. vm_compute. reflexivity. Qed.

(** ** The learning update *)

Section Learn.
Context (cfg : Settings) (net : Backend).

Lemma learn_actor_update_spec (a : Agent.t net) (experiences : Batch) :
  let a1 := Agent.learn_actor_update net a experiences in
  let g := padd (zeros_like (Agent.actor net a)) (learn_g_actor net a experiences) in
  Agent.actor_grad net a1 = g
  /\ Agent.actor net a1
     = (adam_step net (Agent.actor_optimizer net a) (Agent.actor net a) g).1
  /\ Agent.actor_optimizer net a1
     = (adam_step net (Agent.actor_optimizer net a) (Agent.actor net a) g).2
  /\ Agent.critic net a1 = Agent.critic net a
  /\ Agent.critic_optimizer net a1 = Agent.critic_optimizer net a
  /\ Agent.actor_target net a1 = Agent.actor_target net a
  /\ Agent.critic_target net a1 = Agent.critic_target net a.
Proof.
  unfold Agent.learn_actor_update, Agent.actor_optimizer_step, learn_g_actor.
  simpl. destruct (adam_step net _ _ _). done.
Qed.

Lemma learn_critic_update_spec (a : Agent.t net) (g_loss : params) :
  let a1 := Agent.learn_critic_update net a g_loss in
  let g := padd (zeros_like (Agent.critic net a)) g_loss in
  Agent.critic_grad net a1 = g
  /\ Agent.critic net a1
     = (adam_step net (Agent.critic_optimizer net a) (Agent.critic net a) g).1
  /\ Agent.critic_optimizer net a1
     = (adam_step net (Agent.critic_optimizer net a) (Agent.critic net a) g).2
  /\ Agent.actor net a1 = Agent.actor net a
  /\ Agent.actor_grad net a1 = Agent.actor_grad net a
  /\ Agent.actor_target net a1 = Agent.actor_target net a
  /\ Agent.critic_target net a1 = Agent.critic_target net a.
Proof.
  unfold Agent.learn_critic_update, Agent.critic_optimizer_step.
  simpl. destruct (adam_step net _ _ _). done.
Qed.

Lemma gradient_steps_spec (a : Agent.t net) (experiences : Batch) (gamma : Qc) :
  let a1 := Agent.gradient_steps net a experiences gamma in
  let ga := padd (zeros_like (Agent.actor net a)) (learn_g_actor net a experiences) in
  let gc :=
    padd (zeros_like (Agent.critic net a)) (learn_g_critic net a experiences gamma) in
  Agent.actor_grad net a1 = ga
  /\ Agent.critic_grad net a1 = gc
  /\ Agent.actor net a1
     = (adam_step net (Agent.actor_optimizer net a) (Agent.actor net a) ga).1
  /\ Agent.critic net a1
     = (adam_step net (Agent.critic_optimizer net a) (Agent.critic net a) gc).1
  /\ Agent.actor_target net a1 = Agent.actor_target net a
  /\ Agent.critic_target net a1 = Agent.critic_target net a.
Proof.
  intros a1 ga gc. unfold a1, Agent.gradient_steps.
  destruct (learn_actor_update_spec a experiences)
    as (Hag & Ha & Hao & Hc & Hco & Hat & Hct).
  destruct (learn_critic_update_spec
              (Agent.learn_actor_update net a experiences)
              (learn_g_critic net a experiences gamma))
    as (Hcg' & Hc' & _ & Ha' & Hag' & Hat' & Hct').
  fold (learn_g_critic net a experiences gamma).
  rewrite Hcg', Hc', Ha', Hag', Hat', Hct', Hag, Ha, Hc, Hco, Hat, Hct.
  done.
Qed.

Lemma learn_spec (a : Agent.t net) (experiences : Batch) (gamma : Qc) :
  let a1 := Agent.gradient_steps net a experiences gamma in
  let a2 := Agent.learn cfg net a experiences gamma in
  Agent.actor net a2 = Agent.actor net a1
  /\ Agent.critic net a2 = Agent.critic net a1
  /\ Agent.actor_grad net a2 = Agent.actor_grad net a1
  /\ Agent.critic_grad net a2 = Agent.critic_grad net a1
  /\ Agent.actor_target net a2
     = soft_update (TAU cfg) (Agent.actor_target net a1) (Agent.actor net a1)
  /\ Agent.critic_target net a2
     = soft_update (TAU cfg) (Agent.critic_target net a1) (Agent.critic net a1).
Proof. done. Qed.

End Learn.

(** C3.  In [Agent.learn] the gradient the actor's optimizer applies is
    the gradient of the actor loss in the actor's parameters, and the
    gradient the critic's optimizer applies is the gradient of the critic
    loss in the critic's parameters: neither the gradients left by earlier
    calls, nor the gradient the actor loss leaves in the critic's
    parameters, nor the other loss, is part of them.  (A gradient has the
    shape of the parameters it is taken in.) *)
Theorem learn_gradients_independent (cfg : Settings) (net : Backend)
    (a : Agent.t net) (experiences : Batch) (gamma : Qc) :
  let g_actor :=
    grad_policy_actor net (Agent.actor_training net a) (Agent.actor net a)
      (Agent.critic net a) (b_states experiences) in
  let g_critic :=
    grad_critic_loss net (Agent.critic net a) (b_states experiences)
      (b_actions experiences) (Agent.learn_target net a experiences gamma) in
  let a' := Agent.learn cfg net a experiences gamma in
  shape g_actor = shape (Agent.actor net a) ->
  shape g_critic = shape (Agent.critic net a) ->
  Agent.actor_grad net a' = g_actor
  /\ Agent.critic_grad net a' = g_critic
  /\ Agent.actor net a'
     = (adam_step net (Agent.actor_optimizer net a) (Agent.actor net a)
                  g_actor).1
  /\ Agent.critic net a'
     = (adam_step net (Agent.critic_optimizer net a) (Agent.critic net a)
                  g_critic).1.
Proof.
  intros g_actor g_critic a' Hsa Hsc.
  destruct (learn_spec cfg net a experiences gamma)
    as (Ha & Hc & Hag & Hcg & _).
  destruct (gradient_steps_spec net a experiences gamma)
    as (Hag1 & Hcg1 & Ha1 & Hc1 & _).
  fold a' in Ha, Hc, Hag, Hcg.
  change (learn_g_actor net a experiences) with g_actor in Hag1, Ha1.
  change (learn_g_critic net a experiences gamma) with g_critic in Hcg1, Hc1.
  rewrite (padd_zeros _ _ Hsa) in Hag1, Ha1.
  rewrite (padd_zeros _ _ Hsc) in Hcg1, Hc1.
  rewrite Ha, Hc, Hag, Hcg. done.
Qed.

Lemma learn_gradients_independent_witness :
  let a := example_agent in
  let a' :=
    Agent.learn Stub.settings Stub.backend a terminal_batch (GAMMA Stub.settings) in
  Agent.actor_grad Stub.backend a'
  = grad_policy_actor Stub.backend true live_example live_example
      (b_states terminal_batch)
  /\ Agent.critic_grad Stub.backend a'
     = grad_critic_loss Stub.backend live_example (b_states terminal_batch)
         (b_actions terminal_batch)
         (Agent.learn_target Stub.backend a terminal_batch (GAMMA Stub.settings))
  /\ Agent.actor Stub.backend a'
     = (adam_step Stub.backend tt live_example
          (grad_policy_actor Stub.backend true live_example live_example
             (b_states terminal_batch))).1
  /\ Agent.critic Stub.backend a'
     = (adam_step Stub.backend tt live_example
          (grad_critic_loss Stub.backend live_example
             (b_states terminal_batch) (b_actions terminal_batch)
             (Agent.learn_target Stub.backend a terminal_batch
                (GAMMA Stub.settings)))).1.
Proof.
  apply (learn_gradients_independent Stub.settings Stub.backend example_agent
           terminal_batch (GAMMA Stub.settings)); reflexivity.
Defined.

(** On the example agent: the actor loss leaves the gradient 1 in every
    parameter of both networks and the critic loss the gradient -1 in those
    of the critic; the critic's step uses -1 and not 1 + (-1). *)
Example learn_gradients_on_example :
  let a' :=
    Agent.learn Stub.settings Stub.backend example_agent terminal_batch
      (GAMMA Stub.settings) in
  Agent.actor_grad Stub.backend a' = [[1%Qc; 1%Qc]; [1%Qc]]
  /\ Agent.critic_grad Stub.backend a' = [[(-1)%Qc; (-1)%Qc]; [(-1)%Qc]].
Proof. vm_compute. done. Qed.



(** On the example agent the optimizer steps move the live networks and
    leave the target networks where they were. *)
Example gradient_steps_on_example :
  let a1 :=
    Agent.gradient_steps Stub.backend example_agent terminal_batch
      (GAMMA Stub.settings) in
  Agent.actor Stub.backend a1 <> Agent.actor Stub.backend example_agent
  /\ Agent.critic Stub.backend a1 <> Agent.critic Stub.backend example_agent
  /\ Agent.actor_target Stub.backend a1 = target_example
  /\ Agent.critic_target Stub.backend a1 = target_example.
Proof.
  repeat split; intros H;
    apply (f_equal (fun p => Qnum (this (Stub.weight p)))) in H;
    vm_compute in H; discriminate H.
Qed.

(** ** Saving and loading *)

Lemma load_state_dict_fits (current loaded : params) :
  shape loaded = shape current -> load_state_dict current loaded = Some loaded.
Proof.
  intros H. unfold load_state_dict. by case_decide.
Qed.

Lemma disk_laws (writable : string -> bool) :
  FileSystemLaws (Stub.disk writable) eq.
Proof.
  split; simpl.
  - intros p f fs fs'. destruct (writable f); [|done].
    intros [= <-]. apply lookup_insert_eq.
  - intros p f g fs fs'. destruct (writable f); [|done].
    intros [= <-] Hne. by apply lookup_insert_ne.
Qed.

(** On the file system where every name can be written, saving and
    loading are [Agent.save_model] and [Agent.load_model]. *)
Lemma save_model_on_disk (net : Backend) (a : Agent.t net)
    (checkpoint_path : string) (fs : gmap string params) :
  Checkpoint.save_model net (Stub.disk (fun _ => true)) a checkpoint_path fs
  = Some (Agent.save_model net a checkpoint_path fs).
Proof. done. Qed.

Lemma load_model_on_disk (net : Backend) (a : Agent.t net)
    (checkpoint_path : string) (fs : gmap string params) :
  Checkpoint.load_model net (Stub.disk (fun _ => true)) a checkpoint_path fs
  = Agent.load_model net a checkpoint_path fs.
Proof. done. Qed.

(** [save_model] raises when one of its two [torch.save] does, and in no
    other case. *)
Lemma save_model_raises_iff (net : Backend) (F : FileSystem)
    (a : Agent.t net) (checkpoint_path : string) (fs : fs_state F) :
  Checkpoint.save_model net F a checkpoint_path fs = None
  <-> torch_save F (Agent.actor net a) (checkpoint_path +:+ "/actor.pt") fs
      = None
      \/ exists fs1,
           torch_save F (Agent.actor net a) (checkpoint_path +:+ "/actor.pt") fs
           = Some fs1
           /\ torch_save F (Agent.critic net a)
                (checkpoint_path +:+ "/critic.pt") fs1 = None.
Proof.
  unfold Checkpoint.save_model.
  destruct (torch_save F (Agent.actor net a) _ fs) as [fs1|]; simpl.
  - split; [intros H; right; by exists fs1|].
    intros [H|(fs2 & [= <-] & H)]; done.
  - split; [by left|done].
Qed.

(** C8.  A [save_model] that returns has written two artifacts under the
    directory, the parameters of the live actor under the name of the
    actor and those of the live critic under the name of the critic (two
    names for two files), and has left every other file as it was;
    [load_model] on the same directory, called on an agent whose networks
    have the sizes of the saved ones, then returns: it reads these two
    names and leaves an agent whose live actor and critic are the saved
    ones. *)
Theorem save_load_roundtrip (net : Backend) (F : FileSystem)
    (same_file : string -> string -> Prop) (a a' : Agent.t net)
    (checkpoint_path : string) (fs fs' : fs_state F) :
  FileSystemLaws F same_file ->
  let actor_pt := checkpoint_path +:+ "/actor.pt" in
  let critic_pt := checkpoint_path +:+ "/critic.pt" in
  ~ same_file critic_pt actor_pt ->
  shape (Agent.actor net a) = shape (Agent.actor net a') ->
  shape (Agent.critic net a) = shape (Agent.critic net a') ->
  Checkpoint.save_model net F a checkpoint_path fs = Some fs' ->
  (exists fs1,
     torch_save F (Agent.actor net a) actor_pt fs = Some fs1
     /\ torch_save F (Agent.critic net a) critic_pt fs1 = Some fs')
  /\ torch_load F actor_pt fs' = Some (Agent.actor net a)
  /\ torch_load F critic_pt fs' = Some (Agent.critic net a)
  /\ (forall name,
        ~ same_file actor_pt name -> ~ same_file critic_pt name ->
        torch_load F name fs' = torch_load F name fs)
  /\ exists a'',
       Checkpoint.load_model net F a' checkpoint_path fs' = Some a''
       /\ Agent.actor net a'' = Agent.actor net a
       /\ Agent.critic net a'' = Agent.critic net a
       /\ Agent.actor_target net a'' = Agent.actor_target net a'
       /\ Agent.critic_target net a'' = Agent.critic_target net a'
       /\ Agent.memory net a'' = Agent.memory net a'.
Proof.
  intros [Hload Hother] actor_pt critic_pt Hne Hsa Hsc Hsave.
  unfold Checkpoint.save_model in Hsave.
  fold actor_pt in Hsave. fold critic_pt in Hsave.
  destruct (torch_save F (Agent.actor net a) actor_pt fs) as [fs1|] eqn:H1;
    [|done].
  simpl in Hsave.
  assert (torch_load F actor_pt fs' = Some (Agent.actor net a)) as Hactor.
  { rewrite (Hother _ _ _ _ _ Hsave Hne). by eapply Hload. }
  assert (torch_load F critic_pt fs' = Some (Agent.critic net a)) as Hcritic.
  { by eapply Hload. }
  split; [by exists fs1|]. split; [done|]. split; [done|]. split.
  - intros name Ha Hc.
    rewrite (Hother _ _ _ _ _ Hsave Hc). by rewrite (Hother _ _ _ _ _ H1 Ha).
  - unfold Checkpoint.load_model.
    fold actor_pt. fold critic_pt. rewrite Hactor. simpl.
    rewrite (load_state_dict_fits _ _ Hsa). simpl.
    rewrite Hcritic. simpl.
    rewrite (load_state_dict_fits _ _ Hsc). simpl.
    eexists. split; [done|]. done.
Qed.

(** The agent of the examples is saved after a learning update, in the
    directory that is there, and loaded into a new agent. *)
Lemma save_load_roundtrip_witness :
  exists fs' a'',
    Checkpoint.save_model Stub.backend (Stub.disk Stub.checkpoints_only)
      Stub.learned_agent "./checkpoints" ∅ = Some fs'
    /\ Checkpoint.load_model Stub.backend (Stub.disk Stub.checkpoints_only)
         (Agent.init Stub.settings Stub.backend 1 1 0) "./checkpoints" fs'
       = Some a''
    /\ Agent.actor Stub.backend a'' = Agent.actor Stub.backend Stub.learned_agent
    /\ Agent.critic Stub.backend a''
       = Agent.critic Stub.backend Stub.learned_agent.
Proof.
  eexists.
  destruct (save_load_roundtrip Stub.backend (Stub.disk Stub.checkpoints_only)
              eq Stub.learned_agent
              (Agent.init Stub.settings Stub.backend 1 1 0)
              "./checkpoints" ∅ _ (disk_laws Stub.checkpoints_only)
              ltac:(discriminate) eq_refl eq_refl eq_refl)
    as (_ & _ & _ & _ & a'' & Hload & Ha & Hc & _).
  exists a''. split; [reflexivity|]. split; [exact Hload|].
  split; [exact Ha|exact Hc].
Defined.

(** [save_model] raises when the directory is not there, the default one
    as any other; and when only the first of the two files can be
    written. *)
Example save_model_raises :
  Checkpoint.save_model Stub.backend (Stub.disk Stub.checkpoints_only)
    Stub.learned_agent save_model_default ∅ = None
  /\ Checkpoint.save_model Stub.backend
       (Stub.disk (fun f => bool_decide (f = "./checkpoints/actor.pt")))
       Stub.learned_agent "./checkpoints" ∅ = None.
Proof. split; reflexivity. Qed.

(** ** Acting *)

(** C10.  For an actor that answers a batch of [n] states of size
    [state_size] with [n] rows of size [action_size], what [Agent.act]
    returns for a state of size [state_size] is a list that holds one row
    of [action_size] components: the answer of the actor, in evaluation
    mode, to the batch made of this one state, with its batch dimension.
    The call leaves the agent as it was, the actor in training mode. *)
Theorem act_nested (net : Backend) (a : Agent.t net) (state : list Qc) :
  (forall xs,
     length (actor_forward net false (Agent.actor net a) xs) = length xs) ->
  (forall xs,
     Forall (fun x => length x = Agent.state_size net a) xs ->
     Forall (fun r => length r = Agent.action_size net a)
            (actor_forward net false (Agent.actor net a) xs)) ->
  length state = Agent.state_size net a ->
  (Agent.act net a state).1 = Agent.set_training net a true
  /\ (Agent.act net a state).2
     = actor_forward net false (Agent.actor net a) [state]
  /\ exists row,
       (Agent.act net a state).2 = [row]
       /\ length row = Agent.action_size net a.
Proof.
  intros Hrows Hcols Hstate. split; [done|]. split; [done|].
  unfold Agent.act. simpl.
  specialize (Hrows [state]).
  assert (Forall (fun x => length x = Agent.state_size net a) [state]) as Hin
    by (by constructor).
  specialize (Hcols [state] Hin).
  destruct (actor_forward net false (Agent.actor net a) [state])
    as [|row [|row' rest]]; simpl in Hrows; try discriminate.
  exists row. split; [done|]. by apply Forall_cons in Hcols as [? _].
Qed.

Lemma act_nested_witness :
  exists row,
    (Agent.act Stub.backend (Agent.init Stub.settings Stub.backend 1 1 0)
               [Qc_of_Z 3]).2 = [row]
    /\ length row = 1.
Proof.
  apply (act_nested Stub.backend (Agent.init Stub.settings Stub.backend 1 1 0)
           [Qc_of_Z 3]).
  - intros xs. simpl. apply length_map.
  - intros xs _. simpl. apply Forall_fmap, Forall_forall. done.
  - reflexivity.
Defined.

(** The one-weight actor (weight 1) answers the state [3] with [[3]]. *)
Example act_on_example :
  (Agent.act Stub.backend (Agent.init Stub.settings Stub.backend 1 1 0)
             [Qc_of_Z 3]).2
  = [[Qc_of_Z 3]].
Proof. simpl. do 2 f_equal. by apply Qc_is_canon. Qed.

(** ** The training loop *)

Local Open Scope Qc_scope.

Section StubEpisode.
Context {N : Type} (noiseops : NoiseOps N) (n : nat) (r : Qc).

(** An episode on the stub environment, from its [k]-th step on: the loop
    makes [n - k] steps, or [fuel] steps if that is less. *)
Lemma stub_episode_steps (fuel step k : nat) (noise : N) (c : Stub.calls)
    (state : list Qc) (score : Qc) :
  (k < n)%nat ->
  let res :=
    episode_steps (Stub.env n r) noiseops Stub.agent fuel step k noise c
                  state score in
  let t := (fuel `min` (n - k))%nat in
  res.2 = score + Qc_of_Z (Z.of_nat t) * r
  /\ Stub.step_calls res.1.2 = (Stub.step_calls c + t)%nat
  /\ Stub.act_calls res.1.2 = (Stub.act_calls c + t)%nat
  /\ Stub.save_calls res.1.2 = Stub.save_calls c
  /\ res.1.1.1 = (k + t)%nat.
Proof.
  revert step k noise c state score.
  induction fuel as [|fuel IH]; intros step k noise c state score Hk res t;
    pose proof (eq_refl t) as Ht; unfold t at 2 in Ht; clearbody t; unfold res; clear res; simpl.
  - assert (t = 0%nat) as -> by lia.
    change (Z.of_nat 0) with 0%Z. rewrite Z2Qc_inj_0. repeat split; try lia. ring.
  - destruct (get_action noiseops noise [[]] step) as [noise' action'].
    simpl. case_bool_decide as Hdone; simpl.
    + assert (t = 1%nat) as -> by lia.
      change (Z.of_nat 1) with 1%Z. rewrite Z2Qc_inj_1. repeat split; try lia. ring.
    + destruct (IH (S step) (S k) noise'
                  (Stub.mkCalls (S (Stub.act_calls c)) (S (Stub.step_calls c))
                                (Stub.save_calls c))
                  [] (score + r)) as (Hs & Hst & Hact & Hsv & Henv); [lia|].
      simpl in Hst, Hact, Hsv.
      assert (t = S (fuel `min` (n - S k))) as -> by lia.
      rewrite Hs, Hst, Hact, Hsv, Henv.
      repeat split; try lia.
      rewrite Nat2Z.inj_succ, <- Z.add_1_r, Z2Qc_inj_add, Z2Qc_inj_1. ring.
Qed.

End StubEpisode.

(** C9.  On the environment that ends an episode at its fifth step and
    pays 1.0 at every step, one episode of the training loop makes
    [min max_t 5] steps, whatever the noise process: with room for five
    steps, the loop stops at the step at which [done] is true, the score
    of the episode is 5.0 and [Agent.step] was called 5 times (and so was
    [Agent.act]); with less room it stops at [max_t]. *)
Theorem episode_five_steps {N : Type} (noiseops : NoiseOps N) (noise : N)
    (env : nat) (agent : Stub.calls) (max_t : nat) :
  let res := episode (Stub.env 5 1) noiseops Stub.agent max_t env noise agent in
  (res.2 = Qc_of_Z (Z.of_nat (max_t `min` 5))
   /\ Stub.step_calls res.1.2 = (Stub.step_calls agent + max_t `min` 5)%nat)
  /\ ((5 <= max_t)%nat ->
      res.2 = Qc_of_Z 5
      /\ Stub.step_calls res.1.2 = (Stub.step_calls agent + 5)%nat
      /\ Stub.act_calls res.1.2 = (Stub.act_calls agent + 5)%nat).
Proof.
  intros res. unfold res, episode. simpl.
  destruct (stub_episode_steps noiseops 5 1 max_t 0 0
              (noise_reset noiseops noise) agent [] 0)
    as (Hs & Hst & Hact & _); [lia|].
  simpl in Hs, Hst, Hact. rewrite Hs, Hst, Hact.
  split.
  - split; [ring|done].
  - intros Hmax. replace (max_t `min` 5)%nat with 5%nat by lia.
    split; [|done]. change (Z.of_nat 5) with 5%Z. ring.
Qed.

Lemma episode_five_steps_witness :
  let res :=
    episode (Stub.env 5 1) Stub.noise Stub.agent default_max_t 0%nat tt
            Stub.no_calls in
  res.2 = Qc_of_Z 5
  /\ Stub.step_calls res.1.2 = 5%nat
  /\ Stub.act_calls res.1.2 = 5%nat.
Proof.
  apply (episode_five_steps Stub.noise tt 0%nat Stub.no_calls default_max_t).
  apply Nat.leb_le. vm_compute. reflexivity.
Defined.

(** One episode on the score generator: one step, the score 35.0. *)
Lemma constant_35_episode (max_t env : nat) (agent : Stub.calls) :
  (1 <= max_t)%nat ->
  episode constant_35 Stub.noise Stub.agent max_t env tt agent
  = (1%nat, tt,
     Stub.mkCalls (S (Stub.act_calls agent)) (S (Stub.step_calls agent))
                  (Stub.save_calls agent),
     0 + Qc_of_Z 35).
Proof.
  intros H. destruct max_t as [|max_t]; [lia|]. reflexivity.
Qed.

(** The first time the test of the loop is made, the window holds one
    score and its mean is that score. *)
Lemma qmean_singleton (x : Qc) : qmean [x] = x.
Proof.
  unfold qmean. cbn [qsum foldr length]. change (Z.of_nat 1) with 1%Z.
  rewrite Z2Qc_inj_1, Qcplus_0_r. apply (right_id 1 Qcdiv).
Qed.

(** C2, on the code.  With the score generator of 35.0 per episode, the
    default 2000 episodes and 10000 steps, [ddpg] stops at the end of the
    first episode: the mean of the window, which holds one score, is 35.0
    and not less than 30.  It returns one score, saved the model once and
    reported the environment solved in [1 - 100] episodes. *)
Theorem ddpg_constant_35_stops_at_first_episode :
  let r :=
    ddpg constant_35 Stub.noise Stub.agent 0%nat Stub.no_calls 4
         default_n_episodes default_max_t in
  length (r_scores r) = 1%nat
  /\ length (r_scores r) <> 100%nat
  /\ Stub.save_calls (r_agent r) = 1%nat
  /\ Stub.step_calls (r_agent r) = 1%nat
  /\ map this (r_scores r) = [35%Q]%list
  /\ map (fun p => match p with
                   | Progress i _ => (Z.of_nat i, false)
                   | ProgressKept i _ => (Z.of_nat i, false)
                   | Solved i _ => (i, true)
                   end) (r_out r)
     = [(1%Z, false); ((-99)%Z, true)]%list.
Proof. vm_compute. repeat split; done. Qed.

(** The same for every environment, noise process and agent: when the
    score of the first episode is 30 or more, [ddpg] stops after it,
    however many episodes it was given; the window is not asked to hold
    100 scores. *)
Lemma ddpg_stops_at_first_episode {E N A : Type} (envops : EnvOps E)
    (noiseops : NoiseOps N) (agentops : AgentOps A) (env : E) (agent : A)
    (action_size n_episodes max_t : nat) :
  let first :=
    episode envops noiseops agentops max_t env
            (noise_new noiseops action_size) agent in
  Qc_of_Z 30 <= first.2 ->
  let r :=
    ddpg envops noiseops agentops env agent action_size (S n_episodes) max_t in
  r_scores r = (first.2 :: nil)
  /\ r_agent r = agent_save_model agentops first.1.2.
Proof.
  intros first H30 r. unfold r, ddpg. cbn [episodes r_env r_noise r_agent].
  fold first. destruct first as [[[env' noise'] agent'] score] eqn:Hfirst.
  cbn [snd fst] in H30 |- *. cbn [r_scores r_scores_window app].
  assert (deque_append 100 [] score = (score :: nil)) as -> by reflexivity.
  rewrite qmean_singleton, decide_True by done. done.
Qed.

Local Close Scope Qc_scope.

(** * Further properties of the code *)

(** ** The replay buffer: length and sampling *)

(** X1.  The length of a new buffer after [n] calls of [add] is [n], and
    [buffer_size] from the moment [n] is larger: [len] is the smaller of
    the two. *)
Theorem replay_buffer_len (buffer_size batch_size : nat)
    (es : list Experience) :
  ReplayBuffer.len
    (ReplayBuffer.add_all (ReplayBuffer.init buffer_size batch_size) es)
  = length es `min` buffer_size.
Proof.
  destruct (add_all_memory (ReplayBuffer.init buffer_size batch_size) es)
    as (_ & _ & Hmem).
  unfold ReplayBuffer.len. rewrite (Hmem eq_refl), length_drop. simpl. lia.
Qed.

(** X2.  On a new buffer that received [n] records of one environment,
    [sample()] returns a mini-batch exactly when [batch_size] is not zero
    and at most [min n buffer_size], and raises otherwise: [random.sample]
    raises when asked for more records than the buffer holds, and
    [np.vstack] raises on the empty list that a batch size of zero gives.
    So it raises on the empty buffer, it never returns on a buffer whose
    capacity is less than its batch size, and it does return when the
    buffer holds just [batch_size] records (one at least). *)
Theorem replay_buffer_sample_defined (state_size action_size : nat)
    (buffer_size batch_size : nat) (es : list Experience) (rnd : nat -> nat) :
  Forall (shaped state_size action_size) es ->
  let b := ReplayBuffer.add_all (ReplayBuffer.init buffer_size batch_size) es in
  (is_Some (ReplayBuffer.sample b rnd)
   <-> 0 < batch_size /\ batch_size <= length es `min` buffer_size)
  /\ (ReplayBuffer.sample b rnd = None
      <-> batch_size = 0 \/ length es `min` buffer_size < batch_size)
  /\ (buffer_size < batch_size -> ReplayBuffer.sample b rnd = None)
  /\ (es = [] -> ReplayBuffer.sample b rnd = None).
Proof.
  intros Hshaped b.
  destruct (add_all_memory (ReplayBuffer.init buffer_size batch_size) es)
    as (_ & Hbs & Hmem).
  fold b in Hbs, Hmem. simpl in Hbs. specialize (Hmem eq_refl).
  assert (ReplayBuffer.len b = length es `min` buffer_size) as Hlen.
  { unfold ReplayBuffer.len. rewrite Hmem, length_drop. simpl. lia. }
  assert (is_Some (ReplayBuffer.sample b rnd)
          <-> 0 < batch_size /\ batch_size <= length es `min` buffer_size)
    as Hiff.
  { split.
    - intros [batch Hs].
      destruct (sample_inv b rnd batch Hs) as (drawn & Hd & Hne & _).
      unfold ReplayBuffer.draw in Hd.
      apply random_sample_spec in Hd as [Hsub Hk].
      apply submseteq_length in Hsub. fold (ReplayBuffer.len b) in Hsub.
      rewrite Hbs in Hk. destruct drawn; [done|]. simpl in Hk, Hsub. lia.
    - intros [H0 Hle].
      destruct (sample_some state_size action_size b rnd) as [batch ->];
        [lia|lia| |done].
      rewrite Hmem. by apply Forall_drop. }
  split; [done|]. split; [|split].
  - rewrite eq_None_not_Some, Hiff. lia.
  - intros Hlt. apply eq_None_not_Some. rewrite Hiff. lia.
  - intros ->. apply eq_None_not_Some. rewrite Hiff. simpl. lia.
Qed.

(** Three records in a buffer of two: a batch of one or two records is
    returned, none of three. *)
Lemma replay_buffer_sample_defined_witness :
  is_Some (ReplayBuffer.sample
             (ReplayBuffer.add_all (ReplayBuffer.init 2 2) [exp1; exp2; exp3])
             (fun i => i))
  /\ ReplayBuffer.sample
       (ReplayBuffer.add_all (ReplayBuffer.init 2 3) [exp1; exp2; exp3])
       (fun i => i) = None.
Proof.
  assert (Forall (shaped 1 1) [exp1; exp2; exp3]) as Hshaped
    by (repeat constructor).
  split.
  - destruct (replay_buffer_sample_defined 1 1 2 2 [exp1; exp2; exp3]
                (fun i => i) Hshaped) as (H & _).
    apply H. simpl. lia.
  - destruct (replay_buffer_sample_defined 1 1 2 3 [exp1; exp2; exp3]
                (fun i => i) Hshaped) as (_ & H & _).
    apply H. simpl. lia.
Defined.

(** Records whose states do not have one length cannot be stacked:
    [sample()] raises on a buffer that holds a state of one component and
    a state of two. *)
Example sample_raises_on_ragged_rows :
  ReplayBuffer.sample
    (ReplayBuffer.add_all (ReplayBuffer.init 2 2)
       [exp1; mkExperience [0%Qc; 1%Qc] [[0%Qc]] 0%Qc [1%Qc] false])
    (fun i => i)
  = None.
Proof. reflexivity. Qed.

(** X3.  What [sample()] returns: the rows of the arrays of states,
    rewards, next states and terminal flags are [batch_size] each, a flag
    is 0.0 or 1.0, and row [i] of every array comes from one record of the
    buffer, the same for the four arrays.  When every stored action is one
    row, the array of actions has [batch_size] rows as well. *)
Theorem replay_buffer_sample_rows (b : ReplayBuffer.t) (rnd : nat -> nat)
    (batch : Batch) :
  ReplayBuffer.sample b rnd = Some batch ->
  (length (b_states batch) = ReplayBuffer.batch_size b
   /\ length (b_rewards batch) = ReplayBuffer.batch_size b
   /\ length (b_next_states batch) = ReplayBuffer.batch_size b
   /\ length (b_dones batch) = ReplayBuffer.batch_size b)
  /\ Forall (fun d => d = 0%Qc \/ d = 1%Qc) (b_dones batch)
  /\ (forall i, i < ReplayBuffer.batch_size b ->
        exists e,
          e ∈ ReplayBuffer.memory b
          /\ b_states batch !! i = Some (state e)
          /\ b_rewards batch !! i = Some (reward e)
          /\ b_next_states batch !! i = Some (next_state e)
          /\ b_dones batch !! i = Some (b2q (done e)))
  /\ (Forall (fun e => length (action e) = 1) (ReplayBuffer.memory b) ->
      length (b_actions batch) = ReplayBuffer.batch_size b).
Proof.
  intros Hs. destruct (sample_inv b rnd batch Hs) as (drawn & Hd & _ & _ & ->).
  unfold ReplayBuffer.draw in Hd.
  apply random_sample_spec in Hd as [Hsub Hlen].
  simpl. rewrite !length_map, Hlen. split; [done|]. split; [|split].
  - apply Forall_fmap, Forall_forall. intros e _. simpl.
    destruct (done e); auto.
  - intros i Hi. destruct (lookup_lt_is_Some_2 drawn i) as [e He]; [lia|].
    exists e. split.
    + eapply elem_of_submseteq; [|exact Hsub]. by eapply list_elem_of_lookup_2.
    + by rewrite !list_lookup_fmap, He.
  - intros Hone. rewrite <- Hlen.
    assert (Forall (fun e => length (action e) = 1) drawn) as Hdrawn.
    { apply Forall_forall. intros e He.
      apply (proj1 (Forall_forall _ _) Hone).
      by eapply elem_of_submseteq. }
    clear -Hdrawn. induction Hdrawn as [|e drawn He _ IH]; simpl; [done|].
    rewrite length_app, He, IH. done.
Qed.

Lemma replay_buffer_sample_rows_witness :
  length (b_states (ReplayBuffer.stack [exp2])) = 1
  /\ length (b_rewards (ReplayBuffer.stack [exp2])) = 1
  /\ length (b_next_states (ReplayBuffer.stack [exp2])) = 1
  /\ length (b_dones (ReplayBuffer.stack [exp2])) = 1.
Proof.
  destruct (replay_buffer_sample_rows
              (ReplayBuffer.add_all (ReplayBuffer.init 2 1) [exp1; exp2; exp3])
              (fun i => i) (ReplayBuffer.stack [exp2]) eq_refl) as [H _].
  exact H.
Defined.

(** X4.  [random.sample] draws without replacement: when the records of
    the buffer are pairwise distinct, so are the records of a sample; and
    a sample of as many records as the buffer holds is the whole buffer,
    in some order. *)
Theorem replay_buffer_draw_distinct (b : ReplayBuffer.t) (rnd : nat -> nat)
    (drawn : list Experience) :
  ReplayBuffer.draw b rnd = Some drawn ->
  (NoDup (ReplayBuffer.memory b) -> NoDup drawn)
  /\ (ReplayBuffer.batch_size b = ReplayBuffer.len b ->
      drawn ≡ₚ ReplayBuffer.memory b).
Proof.
  unfold ReplayBuffer.draw. intros Hd.
  apply random_sample_spec in Hd as [Hsub Hlen]. split.
  - intros Hnd. apply submseteq_Permutation in Hsub as [k Hk].
    rewrite Hk in Hnd. by apply NoDup_app in Hnd as [? _].
  - intros Hall. apply submseteq_length_Permutation; [done|].
    unfold ReplayBuffer.len in Hall. lia.
Qed.

Lemma replay_buffer_draw_distinct_witness :
  [exp3; exp2] ≡ₚ [exp2; exp3].
Proof.
  destruct (replay_buffer_draw_distinct
              (ReplayBuffer.add_all (ReplayBuffer.init 2 2) [exp1; exp2; exp3])
              (fun i => S i) [exp3; exp2] eq_refl) as [_ H].
  apply H. reflexivity.
Defined.

(** ** Construction *)

Lemma zip_update_copy (target live : list (list Qc)) :
  length target = length live ->
  zip_update (fun _ param => param) target live = live.
Proof.
  revert live. induction target as [|t target IH]; intros [|l live] H;
    simpl in *; try discriminate; [done|].
  f_equal. apply IH. lia.
Qed.

(** X8.  [Agent.__init__] ends with every target network equal to its
    live network, whatever weights the two constructions of a class drew
    (two networks of one class have tensors of the same sizes): the copy
    loops overwrite the weights the target was constructed with.  The
    counter is at 0, the actor in training mode, and the buffer is empty,
    with the configured capacity and batch size. *)
Theorem init_targets_are_copies (cfg : Settings) (net : Backend)
    (state_size action_size seed : nat) :
  shape (actor_new net state_size action_size seed 1)
  = shape (actor_new net state_size action_size seed 0) ->
  shape (critic_new net state_size action_size seed 1)
  = shape (critic_new net state_size action_size seed 0) ->
  let a := Agent.init cfg net state_size action_size seed in
  Agent.actor net a = actor_new net state_size action_size seed 0
  /\ Agent.critic net a = critic_new net state_size action_size seed 0
  /\ Agent.actor_target net a = Agent.actor net a
  /\ Agent.critic_target net a = Agent.critic net a
  /\ Agent.t_step net a = 0
  /\ Agent.actor_training net a = true
  /\ ReplayBuffer.len (Agent.memory net a) = 0
  /\ ReplayBuffer.buffer_size (Agent.memory net a) = BUFFER_SIZE cfg
  /\ ReplayBuffer.batch_size (Agent.memory net a) = BATCH_SIZE cfg.
Proof.
  intros Ha Hc. apply (f_equal length) in Ha, Hc.
  unfold shape in Ha, Hc. rewrite !length_map in Ha, Hc.
  simpl. by rewrite !zip_update_copy.
Qed.

(** With the one-weight networks, whose second construction has the
    weight 2 where the first has 1, both target networks end with 1. *)
Lemma init_targets_are_copies_witness :
  let a := Agent.init Stub.settings Stub.backend 1 1 0 in
  actor_new Stub.backend 1 1 0 1 <> actor_new Stub.backend 1 1 0 0
  /\ Agent.actor_target Stub.backend a = Agent.actor Stub.backend a
  /\ Agent.critic_target Stub.backend a = Agent.critic Stub.backend a.
Proof.
  split.
  - intros H. apply (f_equal (fun p => Qnum (this (Stub.weight p)))) in H.
    vm_compute in H. discriminate H.
  - destruct (init_targets_are_copies Stub.settings Stub.backend 1 1 0
                eq_refl eq_refl) as (_ & _ & Hat & Hct & _).
    split; [exact Hat|exact Hct].
Defined.

(** ** Runs of [Agent.step] *)

Section Runs.
Context (cfg : Settings) (net : Backend).

(** One call that returns: what it leaves and when it learns. *)
Lemma step_call_inv (a a1 : Agent.t net) (c : call)
    (evs : list Agent.event) :
  step_call cfg net a c = Some (a1, evs) ->
  Agent.memory net a1 = stored net a c
  /\ Agent.t_step net a1 = (Agent.t_step net a + 1) mod UPDATE_EVERY cfg
  /\ (evs <> [] <->
      (Agent.t_step net a + 1) mod UPDATE_EVERY cfg = 0
      /\ BATCH_SIZE cfg < ReplayBuffer.len (stored net a c))
  /\ (evs = [] -> a1 = stored_only cfg net a c).
Proof.
  unfold step_call, Agent.step. case_decide as HU; [done|].
  fold (stored net a c). set (m := stored net a c).
  set (n := (Agent.t_step net a + 1) mod UPDATE_EVERY cfg).
  case_decide as Hn; [case_decide as Hlen|].
  - destruct (ReplayBuffer.sample m (c_rnd c)) as [batch|]; [|done].
    simpl. intros [= <- <-].
    destruct (learn_frame cfg net (Agent.set_memory net a m n) batch
                (GAMMA cfg)) as [Hmem Ht].
    rewrite Hmem, Ht. repeat split; try done.
  - intros [= <- <-]. repeat split; try done. intros [_ ?]. lia.
  - intros [= <- <-]. repeat split; try done. by intros [? _].
Qed.

Lemma run_steps_trace (calls : list call) (a a' : Agent.t net)
    (history : list (stepped net)) :
  run_steps cfg net a calls = Some (a', history) ->
  length history = length calls
  /\ Agent.memory net a'
     = ReplayBuffer.add_all (Agent.memory net a) (record_of <$> calls)
  /\ Agent.t_step net a'
     = (if decide (calls = []) then Agent.t_step net a
        else (Agent.t_step net a + length calls) mod UPDATE_EVERY cfg)
  /\ (forall i s, history !! i = Some s ->
        calls !! i = Some (s_call s)
        /\ Agent.memory net (s_after s)
           = ReplayBuffer.add_all (Agent.memory net a)
               (record_of <$> take (S i) calls)
        /\ Agent.t_step net (s_after s)
           = (Agent.t_step net a + S i) mod UPDATE_EVERY cfg
        /\ (s_events s <> [] <->
            (Agent.t_step net a + S i) mod UPDATE_EVERY cfg = 0
            /\ BATCH_SIZE cfg < ReplayBuffer.len (Agent.memory net (s_after s)))
        /\ (s_events s = [] ->
            s_after s = stored_only cfg net (s_before s) (s_call s))).
Proof.
  revert a a' history.
  induction calls as [|c calls IH]; intros a a' history.
  - simpl. intros [= <- <-]. repeat split; done.
  - cbn [run_steps].
    destruct (step_call cfg net a c) as [[a1 evs]|] eqn:Hstep; [|done].
    simpl.
    destruct (run_steps cfg net a1 calls) as [[a2 rest]|] eqn:Hrun; [|done].
    simpl. intros [= <- <-].
    destruct (step_call_inv a a1 c evs Hstep) as (Hm & Ht & Hev & Hnone).
    destruct (IH a1 a2 rest Hrun) as (Hlen & Hmem & Htfin & Hidx).
    assert (forall k, (Agent.t_step net a1 + k) mod UPDATE_EVERY cfg
                      = (Agent.t_step net a + S k) mod UPDATE_EVERY cfg) as Hmod.
    { intros k. rewrite Ht, Nat.Div0.add_mod_idemp_l. f_equal. lia. }
    split; [simpl; by f_equal|].
    split; [by rewrite Hmem, Hm|].
    split.
    { rewrite Htfin. case_decide as Hnil.
      - subst calls. simpl. rewrite Ht. f_equal.
      - apply Hmod. }
    intros [|i] s Hs; simpl in Hs.
    + injection Hs as <-. cbn [s_call s_after s_events s_before take fmap].
      rewrite Hm, Ht.
      repeat split; try done; by apply Hev.
    + destruct (Hidx i s Hs) as (Hc & Hms & Hts & Hevs & Hn).
      split; [done|]. rewrite Hevs, Hms, Hts, Hm, !Hmod. done.
Qed.

End Runs.

(** X9.  When [Agent.step] raises: exactly when the update period is zero
    ([x % 0]), or the call is one that samples (the counter comes back to
    zero and the buffer holds more than [BATCH_SIZE] records) and
    [sample()] raises.  For an agent whose buffer was built with
    [BATCH_SIZE], as [Agent.__init__] does: with a period and a batch
    size that are not zero, and a buffer whose records are those of one
    environment, the call returns; with a batch size of zero, a call that
    samples raises ([np.vstack] of no row). *)
Theorem step_raises_iff (cfg : Settings) (net : Backend)
    (a : Agent.t net) (c : call) :
  (step_call cfg net a c = None
   <-> UPDATE_EVERY cfg = 0
       \/ ((Agent.t_step net a + 1) mod UPDATE_EVERY cfg = 0
           /\ BATCH_SIZE cfg < ReplayBuffer.len (stored net a c)
           /\ ReplayBuffer.sample (stored net a c) (c_rnd c) = None))
  /\ (forall state_size action_size,
        UPDATE_EVERY cfg <> 0 -> BATCH_SIZE cfg <> 0 ->
        ReplayBuffer.batch_size (Agent.memory net a) = BATCH_SIZE cfg ->
        Forall (shaped state_size action_size)
               (ReplayBuffer.memory (stored net a c)) ->
        is_Some (step_call cfg net a c))
  /\ (UPDATE_EVERY cfg <> 0 ->
      ReplayBuffer.batch_size (Agent.memory net a) = 0 ->
      (Agent.t_step net a + 1) mod UPDATE_EVERY cfg = 0 ->
      BATCH_SIZE cfg < ReplayBuffer.len (stored net a c) ->
      step_call cfg net a c = None).
Proof.
  split; [split|split].
  - intros Hnone. destruct (decide (UPDATE_EVERY cfg = 0)) as [HU|HU];
      [by left|right].
    by apply step_call_raises.
  - intros [HU|(Hn & Hlen & Hs)].
    + unfold step_call, Agent.step. by rewrite decide_True.
    + destruct (decide (UPDATE_EVERY cfg = 0)) as [HU|HU].
      { unfold step_call, Agent.step. by rewrite decide_True. }
      rewrite step_call_learns by done. by rewrite Hs.
  - intros state_size action_size HU HB Hbs Hshaped.
    destruct (step_call_returns cfg net state_size action_size a c HU HB Hbs
                Hshaped) as (a1 & evs & ->).
    by eexists.
  - intros HU Hbs Hn Hlen. rewrite step_call_learns by done.
    by rewrite sample_batch_zero.
Qed.

Lemma step_raises_iff_witness :
  is_Some (step_call Stub.settings Stub.backend
             (Agent.init Stub.settings Stub.backend 1 1 0)
             (example_call 1 false)).
Proof.
  destruct (step_raises_iff Stub.settings Stub.backend
              (Agent.init Stub.settings Stub.backend 1 1 0)
              (example_call 1 false)) as (_ & H & _).
  apply (H 1 1); [simpl; lia | simpl; lia | reflexivity | repeat constructor].
Defined.

(** X10.  In a run of [Agent.step] calls on a new agent, the update
    period and the batch size not being zero and the records being those
    of one environment, the call number [i] (counted from 1) samples and
    learns exactly when [i] is a multiple of the update period and more
    than [BATCH_SIZE] records are in the buffer, that is when
    [BATCH_SIZE < min i BUFFER_SIZE]. *)
Theorem learning_calls (cfg : Settings) (net : Backend)
    (state_size action_size seed : nat) (calls : list call) :
  UPDATE_EVERY cfg <> 0 ->
  BATCH_SIZE cfg <> 0 ->
  Forall (fun c => shaped state_size action_size (record_of c)) calls ->
  exists a' history,
    run_steps cfg net (Agent.init cfg net state_size action_size seed) calls
    = Some (a', history)
    /\ (forall i s, history !! i = Some s ->
          (s_events s <> [] <->
           S i mod UPDATE_EVERY cfg = 0
           /\ BATCH_SIZE cfg < S i `min` BUFFER_SIZE cfg)).
Proof.
  intros HU HB Hcalls.
  destruct (run_steps_returns cfg net state_size action_size calls
              (Agent.init cfg net state_size action_size seed) HU HB eq_refl
              (Forall_nil_2 _) Hcalls)
    as (a' & history & Hrun).
  exists a', history. split; [done|]. intros i s Hs.
  destruct (run_steps_trace cfg net calls _ _ _ Hrun) as (Hlen & _ & _ & Hidx).
  destruct (Hidx i s Hs) as (Hc & Hm & _ & Hev & _).
  rewrite Hev, Hm.
  change (Agent.t_step net (Agent.init cfg net state_size action_size seed))
    with 0.
  change (Agent.memory net (Agent.init cfg net state_size action_size seed))
    with (ReplayBuffer.init (BUFFER_SIZE cfg) (BATCH_SIZE cfg)).
  destruct (add_all_memory (ReplayBuffer.init (BUFFER_SIZE cfg) (BATCH_SIZE cfg))
              (record_of <$> take (S i) calls)) as (_ & _ & Hmem).
  unfold ReplayBuffer.len.
  rewrite (Hmem eq_refl), length_drop, length_fmap, length_take.
  apply lookup_lt_Some in Hc. rewrite Nat.add_0_l.
  change (ReplayBuffer.buffer_size
            (ReplayBuffer.init (BUFFER_SIZE cfg) (BATCH_SIZE cfg)))
    with (BUFFER_SIZE cfg).
  replace (S i `min` length calls - (S i `min` length calls - BUFFER_SIZE cfg))
    with (S i `min` BUFFER_SIZE cfg) by lia.
  done.
Qed.

Lemma learning_calls_witness :
  exists a' history,
    run_steps Stub.settings Stub.backend
      (Agent.init Stub.settings Stub.backend 1 1 0) example_calls
    = Some (a', history)
    /\ (forall i s, history !! i = Some s ->
          (s_events s <> [] <->
           S i mod UPDATE_EVERY Stub.settings = 0
           /\ BATCH_SIZE Stub.settings < S i `min` BUFFER_SIZE Stub.settings)).
Proof.
  apply (learning_calls Stub.settings Stub.backend 1 1 0 example_calls);
    [simpl; lia | simpl; lia | repeat constructor].
Defined.

(** X11.  After a run of [n] calls on a new agent, the update period
    and the batch size not being zero and the records being those of one
    environment, the buffer holds the records of the last [BUFFER_SIZE]
    calls, in the order of the calls, and the counter is [n] modulo the
    update period: learning updates never change what is stored. *)
Theorem run_buffer_contents (cfg : Settings) (net : Backend)
    (state_size action_size seed : nat) (calls : list call) :
  UPDATE_EVERY cfg <> 0 ->
  BATCH_SIZE cfg <> 0 ->
  Forall (fun c => shaped state_size action_size (record_of c)) calls ->
  exists a' history,
    run_steps cfg net (Agent.init cfg net state_size action_size seed) calls
    = Some (a', history)
    /\ ReplayBuffer.memory (Agent.memory net a')
       = drop (length calls - BUFFER_SIZE cfg) (record_of <$> calls)
    /\ Agent.t_step net a' = length calls mod UPDATE_EVERY cfg.
Proof.
  intros HU HB Hcalls.
  destruct (run_steps_returns cfg net state_size action_size calls
              (Agent.init cfg net state_size action_size seed) HU HB eq_refl
              (Forall_nil_2 _) Hcalls)
    as (a' & history & Hrun).
  exists a', history. split; [done|].
  destruct (run_steps_trace cfg net calls _ _ _ Hrun) as (_ & Hm & Ht & _).
  change (Agent.t_step net (Agent.init cfg net state_size action_size seed))
    with 0 in Ht.
  change (Agent.memory net (Agent.init cfg net state_size action_size seed))
    with (ReplayBuffer.init (BUFFER_SIZE cfg) (BATCH_SIZE cfg)) in Hm.
  split.
  - rewrite Hm.
    destruct (add_all_memory
                (ReplayBuffer.init (BUFFER_SIZE cfg) (BATCH_SIZE cfg))
                (record_of <$> calls)) as (_ & _ & Hmem).
    rewrite (Hmem eq_refl), length_fmap. done.
  - rewrite Ht. case_decide as Hnil; [|done].
    subst calls. simpl. by rewrite Nat.Div0.mod_0_l.
Qed.

Lemma run_buffer_contents_witness :
  exists a' history,
    run_steps Stub.settings Stub.backend
      (Agent.init Stub.settings Stub.backend 1 1 0) example_calls
    = Some (a', history)
    /\ ReplayBuffer.memory (Agent.memory Stub.backend a')
       = drop (length example_calls - BUFFER_SIZE Stub.settings)
              (record_of <$> example_calls)
    /\ Agent.t_step Stub.backend a'
       = length example_calls mod UPDATE_EVERY Stub.settings.
Proof.
  apply (run_buffer_contents Stub.settings Stub.backend 1 1 0 example_calls);
    [simpl; lia | simpl; lia | repeat constructor].
Defined.

Lemma run_steps_no_learning (cfg : Settings) (net : Backend)
    (calls : list call) (a a' : Agent.t net) (history : list (stepped net)) :
  ReplayBuffer.buffer_size (Agent.memory net a) <= BATCH_SIZE cfg ->
  ReplayBuffer.len (Agent.memory net a)
  <= ReplayBuffer.buffer_size (Agent.memory net a) ->
  run_steps cfg net a calls = Some (a', history) ->
  Forall (fun s => s_events s = []) history
  /\ Agent.actor net a' = Agent.actor net a
  /\ Agent.critic net a' = Agent.critic net a
  /\ Agent.actor_target net a' = Agent.actor_target net a
  /\ Agent.critic_target net a' = Agent.critic_target net a.
Proof.
  revert a a' history.
  induction calls as [|c calls IH]; intros a a' history Hcap Hlen.
  - simpl. intros [= <- <-]. by repeat split.
  - cbn [run_steps].
    destruct (step_call cfg net a c) as [[a1 evs]|] eqn:Hstep; [|done].
    simpl.
    destruct (run_steps cfg net a1 calls) as [[a2 rest]|] eqn:Hrun; [|done].
    simpl. intros [= <- <-].
    destruct (step_call_inv cfg net a a1 c evs Hstep) as (Hm & _ & Hev & Hnone).
    assert (ReplayBuffer.len (stored net a c)
            <= ReplayBuffer.buffer_size (Agent.memory net a)) as Hlen1.
    { unfold stored, ReplayBuffer.add, ReplayBuffer.len. simpl.
      by apply deque_append_length. }
    assert (evs = []) as ->.
    { destruct evs as [|ev evs]; [done|].
      assert (ev :: evs <> []) as Hne by done.
      apply Hev in Hne as [_ ?]. lia. }
    specialize (Hnone eq_refl). subst a1.
    destruct (IH (stored_only cfg net a c) a2 rest)
      as (Hall & Ha & Hc & Hat & Hct); [exact Hcap|exact Hlen1|exact Hrun|].
    split; [by constructor|]. by rewrite Ha, Hc, Hat, Hct.
Qed.

Lemma run_steps_small_buffer (cfg : Settings) (net : Backend)
    (calls : list call) (a : Agent.t net) :
  UPDATE_EVERY cfg <> 0 ->
  ReplayBuffer.buffer_size (Agent.memory net a) <= BATCH_SIZE cfg ->
  ReplayBuffer.len (Agent.memory net a)
  <= ReplayBuffer.buffer_size (Agent.memory net a) ->
  exists a' history, run_steps cfg net a calls = Some (a', history).
Proof.
  intros HU. revert a.
  induction calls as [|c calls IH]; intros a Hcap Hlen.
  - by eexists _, _.
  - cbn [run_steps].
    assert (ReplayBuffer.len (stored net a c)
            <= ReplayBuffer.buffer_size (Agent.memory net a)) as Hlen1.
    { unfold stored, ReplayBuffer.add, ReplayBuffer.len. simpl.
      by apply deque_append_length. }
    rewrite step_call_skips; [|done|right; lia]. simpl.
    destruct (IH (stored_only cfg net a c)) as (a' & history & ->);
      [exact Hcap|exact Hlen1|].
    simpl. by eexists _, _.
Qed.

(** X12.  An agent whose buffer cannot hold more than one batch
    ([BUFFER_SIZE <= BATCH_SIZE]) never learns: in every run on a new
    agent no call samples or learns, and the four networks stay what
    [Agent.__init__] made them. *)
Theorem never_learns_with_small_buffer (cfg : Settings) (net : Backend)
    (state_size action_size seed : nat) (calls : list call) :
  UPDATE_EVERY cfg <> 0 ->
  BUFFER_SIZE cfg <= BATCH_SIZE cfg ->
  let a := Agent.init cfg net state_size action_size seed in
  exists a' history,
    run_steps cfg net a calls = Some (a', history)
    /\ Forall (fun s => s_events s = []) history
    /\ Agent.actor net a' = Agent.actor net a
    /\ Agent.critic net a' = Agent.critic net a
    /\ Agent.actor_target net a' = Agent.actor_target net a
    /\ Agent.critic_target net a' = Agent.critic_target net a.
Proof.
  intros HU Hsmall a.
  destruct (run_steps_small_buffer cfg net calls a HU Hsmall)
    as (a' & history & Hrun); [unfold a, ReplayBuffer.len; simpl; lia|].
  exists a', history. split; [done|].
  apply (run_steps_no_learning cfg net calls a a' history);
    [exact Hsmall | unfold a, ReplayBuffer.len; simpl; lia | exact Hrun].
Qed.

Lemma never_learns_with_small_buffer_witness :
  exists a' history,
    run_steps small_buffer_settings Stub.backend
      (Agent.init small_buffer_settings Stub.backend 1 1 0) example_calls
    = Some (a', history)
    /\ Forall (fun s => s_events s = []) history
    /\ Agent.actor Stub.backend a'
       = Agent.actor Stub.backend
           (Agent.init small_buffer_settings Stub.backend 1 1 0)
    /\ Agent.critic Stub.backend a'
       = Agent.critic Stub.backend
           (Agent.init small_buffer_settings Stub.backend 1 1 0)
    /\ Agent.actor_target Stub.backend a'
       = Agent.actor_target Stub.backend
           (Agent.init small_buffer_settings Stub.backend 1 1 0)
    /\ Agent.critic_target Stub.backend a'
       = Agent.critic_target Stub.backend
           (Agent.init small_buffer_settings Stub.backend 1 1 0).
Proof.
  apply (never_learns_with_small_buffer small_buffer_settings Stub.backend
           1 1 0 example_calls); simpl; lia.
Defined.

(** ** What a learning update leaves alone and keeps *)

(** X13.  [Agent.learn] changes the networks, their gradients and their
    optimizers only: the replay buffer, the step counter, the mode of the
    actor and the sizes of the agent are what they were. *)
Theorem learn_leaves_buffer_and_counter (cfg : Settings) (net : Backend)
    (a : Agent.t net) (experiences : Batch) (gamma : Qc) :
  let a' := Agent.learn cfg net a experiences gamma in
  Agent.memory net a' = Agent.memory net a
  /\ Agent.t_step net a' = Agent.t_step net a
  /\ Agent.actor_training net a' = Agent.actor_training net a
  /\ Agent.state_size net a' = Agent.state_size net a
  /\ Agent.action_size net a' = Agent.action_size net a.
Proof.
  unfold Agent.learn, Agent.gradient_steps, Agent.learn_critic_update,
    Agent.learn_actor_update, Agent.critic_optimizer_step,
    Agent.actor_optimizer_step.
  repeat (destruct (adam_step net _ _ _); simpl). done.
Qed.

Lemma padd_shape (p g : list (list Qc)) :
  shape g = shape p -> shape (padd p g) = shape p.
Proof.
  revert g. induction p as [|x p IH]; intros [|y g] H; simpl in *;
    try discriminate; [done|].
  injection H as H1 H2. unfold padd in *. simpl. f_equal.
  - by apply tadd_length.
  - by apply IH.
Qed.

(** X14.  [Agent.learn] keeps the shapes of the four networks, provided
    the optimizer returns parameters of the shape it was given and a
    gradient has the shape of its parameters: a target network that has
    the shape of its live network still has it after the update, so the
    next soft update again pairs every entry. *)
Theorem learn_keeps_shapes (cfg : Settings) (net : Backend)
    (a : Agent.t net) (experiences : Batch) (gamma : Qc) :
  (forall o p g, shape g = shape p -> shape (adam_step net o p g).1 = shape p) ->
  shape (learn_g_actor net a experiences) = shape (Agent.actor net a) ->
  shape (learn_g_critic net a experiences gamma) = shape (Agent.critic net a) ->
  shape (Agent.actor_target net a) = shape (Agent.actor net a) ->
  shape (Agent.critic_target net a) = shape (Agent.critic net a) ->
  let a' := Agent.learn cfg net a experiences gamma in
  shape (Agent.actor net a') = shape (Agent.actor net a)
  /\ shape (Agent.critic net a') = shape (Agent.critic net a)
  /\ shape (Agent.actor_target net a') = shape (Agent.actor net a')
  /\ shape (Agent.critic_target net a') = shape (Agent.critic net a').
Proof.
  intros Hadam Hga Hgc Hat Hct a'.
  destruct (learn_spec cfg net a experiences gamma)
    as (Ha & Hc & _ & _ & Hat' & Hct').
  destruct (gradient_steps_spec net a experiences gamma)
    as (_ & _ & Ha1 & Hc1 & Hat1 & Hct1).
  fold a' in Ha, Hc, Hat', Hct'.
  rewrite (padd_zeros _ _ Hga) in Ha1. rewrite (padd_zeros _ _ Hgc) in Hc1.
  assert (shape (Agent.actor net a') = shape (Agent.actor net a)) as Hsa.
  { rewrite Ha, Ha1. by apply Hadam. }
  assert (shape (Agent.critic net a') = shape (Agent.critic net a)) as Hsc.
  { rewrite Hc, Hc1. by apply Hadam. }
  split; [done|]. split; [done|]. split.
  - rewrite Hat', <- Ha. apply soft_update_shape. by rewrite Hat1, Hat, Hsa.
  - rewrite Hct', <- Hc. apply soft_update_shape. by rewrite Hct1, Hct, Hsc.
Qed.

Lemma learn_keeps_shapes_witness :
  let a' :=
    Agent.learn Stub.settings Stub.backend example_agent terminal_batch
      (GAMMA Stub.settings) in
  shape (Agent.actor Stub.backend a') = shape live_example
  /\ shape (Agent.critic Stub.backend a') = shape live_example
  /\ shape (Agent.actor_target Stub.backend a')
     = shape (Agent.actor Stub.backend a')
  /\ shape (Agent.critic_target Stub.backend a')
     = shape (Agent.critic Stub.backend a').
Proof.
  apply (learn_keeps_shapes Stub.settings Stub.backend example_agent
           terminal_batch (GAMMA Stub.settings)); try reflexivity.
  intros o p g. apply padd_shape.
Defined.

(** ** Saving and loading: failures, defaults, composition *)

(** X16.  The default directory of [save_model] is not the one of
    [load_model]: the two artifacts [save_model()] writes are not the
    files [load_model()] reads, so loading with the default after saving
    with the default gives what loading gave before the save, and raises
    when the file system held no artifact. *)
Theorem default_paths_do_not_round_trip (net : Backend) (a a' : Agent.t net)
    (fs : gmap string (list (list Qc))) :
  Agent.load_model net a' load_model_default
    (Agent.save_model net a save_model_default fs)
  = Agent.load_model net a' load_model_default fs
  /\ Agent.load_model net a' load_model_default
       (Agent.save_model net a save_model_default ∅) = None.
Proof.
  assert (forall fs0 : gmap string (list (list Qc)),
            Agent.load_model net a' load_model_default
              (Agent.save_model net a save_model_default fs0)
            = Agent.load_model net a' load_model_default fs0) as H.
  { intros fs0. unfold Agent.load_model, Agent.save_model.
    by rewrite !lookup_insert_ne. }
  split; [apply H|]. rewrite H. done.
Qed.

(** X17.  Saving twice in one directory keeps the last save: the file
    system is the one the second save alone gives, and loading from the
    directory restores the networks of the agent saved last. *)
Theorem save_model_overwrites (net : Backend) (a1 a2 a' : Agent.t net)
    (checkpoint_path : string) (fs : gmap string (list (list Qc))) :
  Agent.save_model net a2 checkpoint_path
    (Agent.save_model net a1 checkpoint_path fs)
  = Agent.save_model net a2 checkpoint_path fs
  /\ Agent.load_model net a' checkpoint_path
       (Agent.save_model net a2 checkpoint_path
          (Agent.save_model net a1 checkpoint_path fs))
     = Agent.load_model net a' checkpoint_path
         (Agent.save_model net a2 checkpoint_path fs).
Proof.
  assert (Agent.save_model net a2 checkpoint_path
            (Agent.save_model net a1 checkpoint_path fs)
          = Agent.save_model net a2 checkpoint_path fs) as H.
  { unfold Agent.save_model. apply map_eq. intros name.
    destruct (decide (name = checkpoint_path +:+ "/critic.pt")) as [->|Hc].
    { by rewrite !lookup_insert_eq. }
    rewrite !(lookup_insert_ne _ (checkpoint_path +:+ "/critic.pt")) by done.
    destruct (decide (name = checkpoint_path +:+ "/actor.pt")) as [->|Ha].
    { by rewrite !lookup_insert_eq. }
    by rewrite !lookup_insert_ne. }
  by rewrite H.
Qed.

(** ** Episodes, counted *)

Lemma episode_steps_calls {E N : Type} (envops : EnvOps E)
    (noiseops : NoiseOps N) (fuel step : nat) (env : E) (noise : N)
    (c : Stub.calls) (state : list Qc) (score : Qc) :
  let res :=
    episode_steps envops noiseops Stub.agent fuel step env noise c state score in
  exists t,
    t <= fuel
    /\ Stub.step_calls res.1.2 = Stub.step_calls c + t
    /\ Stub.act_calls res.1.2 = Stub.act_calls c + t
    /\ Stub.save_calls res.1.2 = Stub.save_calls c
    /\ ((forall e u, (env_step envops e u).2.2 = false) -> t = fuel).
Proof.
  revert step env noise c state score.
  induction fuel as [|fuel IH]; intros step env noise c state score.
  - exists 0. simpl. repeat split; lia.
  - cbn [episode_steps].
    cbn [agent_act agent_step Stub.agent Stub.act_calls Stub.step_calls
         Stub.save_calls].
    destruct (get_action noiseops noise [[]] step) as [noise1 action1].
    pose proof (fun H : forall e u, (env_step envops e u).2.2 = false =>
                  H env action1) as Hnever.
    destruct (env_step envops env action1) as [env1 [[next_state reward] done]].
    cbn [fst snd] in Hnever. destruct done.
    + exists 1. simpl. repeat split; try lia. intros H. by apply Hnever in H.
    + destruct (IH (S step) env1 noise1
                  (Stub.mkCalls (S (Stub.act_calls c)) (S (Stub.step_calls c))
                                (Stub.save_calls c))
                  next_state (score + reward)%Qc)
        as (t & Ht & Hs & Ha & Hsv & Hall).
      simpl in Hs, Ha, Hsv. exists (S t).
      rewrite Hs, Ha, Hsv. repeat split; try lia.
      intros H. rewrite (Hall H). done.
Qed.

(** X19.  One episode of the training loop, for every environment and
    noise process: [Agent.act] and [Agent.step] are called equally often,
    once per step and at most [max_t] times, and [save_model] is not
    called; on an environment that never reports [done] the episode is
    ended by the bound, after exactly [max_t] steps. *)
Theorem episode_calls {E N : Type} (envops : EnvOps E) (noiseops : NoiseOps N)
    (max_t : nat) (env : E) (noise : N) (c : Stub.calls) :
  let res := episode envops noiseops Stub.agent max_t env noise c in
  exists t,
    t <= max_t
    /\ Stub.step_calls res.1.2 = Stub.step_calls c + t
    /\ Stub.act_calls res.1.2 = Stub.act_calls c + t
    /\ Stub.save_calls res.1.2 = Stub.save_calls c
    /\ ((forall e u, (env_step envops e u).2.2 = false) -> t = max_t).
Proof.
  unfold episode. destruct (env_reset envops env) as [env1 state].
  apply episode_steps_calls.
Qed.

(** X22.  A call of [Agent.step] that learns is made of three steps: it
    stores its record, draws [BATCH_SIZE] records from the buffer that
    already holds the new one, and runs [learn] with the discount [GAMMA]
    on the mini-batch made of them. *)
Theorem step_learns_from_sample (cfg : Settings) (net : Backend)
    (a a1 : Agent.t net) (c : call) (evs : list Agent.event) :
  ReplayBuffer.batch_size (Agent.memory net a) = BATCH_SIZE cfg ->
  step_call cfg net a c = Some (a1, evs) ->
  evs <> [] ->
  exists drawn,
    ReplayBuffer.draw (stored net a c) (c_rnd c) = Some drawn
    /\ drawn ⊆+ ReplayBuffer.memory (stored net a c)
    /\ length drawn = BATCH_SIZE cfg
    /\ evs = [Agent.Sampled (stored net a c);
              Agent.Learned (ReplayBuffer.stack drawn)]
    /\ a1 = Agent.learn cfg net (stored_only cfg net a c)
                        (ReplayBuffer.stack drawn) (GAMMA cfg).
Proof.
  intros Hbs. unfold step_call, Agent.step. case_decide as HU; [done|].
  fold (stored net a c). fold (stored_only cfg net a c).
  case_decide as Hn; [case_decide as Hlen|]; try by intros [= <- <-].
  destruct (ReplayBuffer.sample (stored net a c) (c_rnd c)) as [batch|] eqn:Hs;
    [|done].
  destruct (sample_inv _ _ _ Hs) as (drawn & Hd & _ & _ & ->).
  simpl. intros [= <- <-] _. exists drawn.
  unfold ReplayBuffer.draw in Hd.
  destruct (random_sample_spec _ _ _ _ Hd) as [Hsub Hlen'].
  repeat split; try done. rewrite Hlen'. exact Hbs.
Qed.

Lemma step_learns_from_sample_witness :
  exists drawn,
    ReplayBuffer.draw (stored Stub.backend warm_agent (example_call 4 true))
                      (fun i => i) = Some drawn
    /\ length drawn = BATCH_SIZE Stub.settings.
Proof.
  pose proof (fun a1 evs =>
                step_learns_from_sample Stub.settings Stub.backend warm_agent
                  a1 (example_call 4 true) evs eq_refl) as H.
  edestruct H as (drawn & Hd & _ & Hlen & _);
    [vm_compute; reflexivity | discriminate |].
  exists drawn. by split.
Defined.

(** ** The training loop, counted *)

Lemma episode_on_counting_agent {E N : Type} (envops : EnvOps E)
    (noiseops : NoiseOps N) (max_t : nat) (env : E) (noise : N)
    (c : Stub.calls) :
  let res := episode envops noiseops Stub.agent max_t env noise c in
  exists t,
    t <= max_t
    /\ Stub.step_calls res.1.2 = Stub.step_calls c + t
    /\ Stub.act_calls res.1.2 = Stub.act_calls c + t
    /\ Stub.save_calls res.1.2 = Stub.save_calls c.
Proof.
  unfold episode. destruct (env_reset envops env) as [env1 state].
  destruct (episode_steps_calls envops noiseops max_t 0 env1
              (noise_reset noiseops noise) c state 0%Qc)
    as (t & Ht & Hs & Ha & Hsv & _).
  by exists t.
Qed.

Lemma episodes_on_counting_agent {E N : Type} (envops : EnvOps E)
    (noiseops : NoiseOps N) (max_t fuel i_episode : nat)
    (r0 : run (E:=E) (N:=N) (A:=Stub.calls)) :
  r_scores_window r0 = drop (length (r_scores r0) - 100) (r_scores r0) ->
  i_episode = S (length (r_scores r0)) ->
  let r := episodes envops noiseops Stub.agent max_t fuel i_episode r0 in
  exists new out t,
    r_scores r = r_scores r0 ++ new
    /\ length new <= fuel
    /\ r_scores_window r = drop (length (r_scores r) - 100) (r_scores r)
    /\ t <= length new * max_t
    /\ Stub.act_calls (r_agent r) = Stub.act_calls (r_agent r0) + t
    /\ Stub.step_calls (r_agent r) = Stub.step_calls (r_agent r0) + t
    /\ Forall (fun p => is_solved p = false) out
    /\ ((Stub.save_calls (r_agent r) = S (Stub.save_calls (r_agent r0))
         /\ 1 <= length new
         /\ exists average,
              r_out r
              = r_out r0 ++ out
                ++ [Solved (Z.of_nat (length (r_scores r)) - 100) average])
        \/ (Stub.save_calls (r_agent r) = Stub.save_calls (r_agent r0)
            /\ length new = fuel
            /\ r_out r = r_out r0 ++ out)).
Proof.
  revert i_episode r0.
  induction fuel as [|fuel IH]; intros i_episode r0 Hwin Hi.
  - exists [], [], 0. simpl. rewrite !app_nil_r.
    repeat split; try done; try lia. right. done.
  - cbn [episodes].
    pose proof (episode_on_counting_agent envops noiseops max_t (r_env r0)
                  (r_noise r0) (r_agent r0)) as Hep.
    destruct (episode envops noiseops Stub.agent max_t (r_env r0) (r_noise r0)
                (r_agent r0)) as [[[env noise] agent] score].
    destruct Hep as (t0 & Ht0 & Hs0 & Ha0 & Hsv0). cbn [fst snd] in Hs0, Ha0, Hsv0.
    set (window := deque_append 100 (r_scores_window r0) score).
    set (printed_now :=
           if decide (i_episode mod 100 = 0)
           then [Progress i_episode (qmean window);
                 ProgressKept i_episode (qmean window)]
           else [Progress i_episode (qmean window)]).
    assert ((if decide (i_episode mod 100 = 0)
             then (r_out r0 ++ [Progress i_episode (qmean window)])
                  ++ [ProgressKept i_episode (qmean window)]
             else r_out r0 ++ [Progress i_episode (qmean window)])
            = r_out r0 ++ printed_now) as Hout.
    { unfold printed_now. case_decide; [by rewrite <- app_assoc|done]. }
    rewrite Hout.
    assert (Forall (fun p => is_solved p = false) printed_now) as Hnow.
    { unfold printed_now. case_decide; by repeat constructor. }
    assert (window
            = drop (length (r_scores r0 ++ [score]) - 100)
                   (r_scores r0 ++ [score])) as Hwin'.
    { unfold window. rewrite Hwin. apply deque_append_drop. }
    clear Hout. clearbody printed_now window.
    case_decide as Htest.
    + exists [score], printed_now, t0. cbn [r_scores r_scores_window r_agent r_out].
      cbn [agent_save_model Stub.agent Stub.save_calls Stub.act_calls
           Stub.step_calls].
      split; [done|]. split; [simpl; lia|]. split; [done|].
      split; [simpl; lia|]. split; [done|]. split; [done|]. split; [done|].
      left. split; [by rewrite Hsv0|]. split; [simpl; lia|].
      exists (qmean window). rewrite length_app, Hi. simpl.
      rewrite <- app_assoc. do 4 f_equal. lia.
    + destruct (IH (S i_episode)
                  (mkRun env noise agent (r_scores r0 ++ [score]) window
                         (r_out r0 ++ printed_now)))
        as (new & out & t & Hsc & Hlen & Hw & Ht & Ha & Hs & Hall & Hend).
      { done. }
      { cbn [r_scores]. rewrite length_app, Hi. simpl. lia. }
      cbn [r_scores r_scores_window r_agent r_out] in Hsc, Hw, Ha, Hs, Hend.
      exists (score :: new), (printed_now ++ out), (t0 + t).
      split; [by rewrite Hsc, <- app_assoc|]. split; [simpl; lia|].
      split; [done|]. split; [simpl; lia|].
      split; [rewrite Ha, Ha0; lia|]. split; [rewrite Hs, Hs0; lia|].
      split; [by apply Forall_app|].
      destruct Hend as [(Hsv & Hone & average & Hro)|(Hsv & Hall' & Hro)].
      * left. split; [by rewrite Hsv, Hsv0|]. split; [simpl; lia|].
        exists average. by rewrite Hro, <- !app_assoc.
      * right. split; [by rewrite Hsv, Hsv0|]. split; [simpl; lia|].
        by rewrite Hro, <- !app_assoc.
Qed.

(** X23.  [ddpg], for every environment and noise process, on an agent
    that counts its calls.  It returns at most [n_episodes] scores, its
    window holds the last 100 of them, and [act] and [step] were called
    equally often, at most [max_t] times per episode.  [save_model] is
    called at most once: either the loop stopped on its test, then
    [save_model] was called once, the closing message is the last thing
    printed and the only one of its kind, and the number of episodes it
    reports is the number of scores minus 100 (a negative number when
    fewer than 100 episodes were run); or the loop ran its [n_episodes]
    episodes, [save_model] was not called and no closing message was
    printed. *)
Theorem ddpg_saves_at_most_once {E N : Type} (envops : EnvOps E)
    (noiseops : NoiseOps N) (env : E) (c : Stub.calls)
    (action_size n_episodes max_t : nat) :
  let r := ddpg envops noiseops Stub.agent env c action_size n_episodes max_t in
  length (r_scores r) <= n_episodes
  /\ r_scores_window r = drop (length (r_scores r) - 100) (r_scores r)
  /\ (exists t,
        t <= length (r_scores r) * max_t
        /\ Stub.act_calls (r_agent r) = Stub.act_calls c + t
        /\ Stub.step_calls (r_agent r) = Stub.step_calls c + t)
  /\ ((Stub.save_calls (r_agent r) = S (Stub.save_calls c)
       /\ 1 <= length (r_scores r)
       /\ exists out average,
            r_out r
            = out ++ [Solved (Z.of_nat (length (r_scores r)) - 100) average]
            /\ Forall (fun p => is_solved p = false) out)
      \/ (Stub.save_calls (r_agent r) = Stub.save_calls c
          /\ length (r_scores r) = n_episodes
          /\ Forall (fun p => is_solved p = false) (r_out r))).
Proof.
  intros r. unfold r, ddpg. cbn [r_scores r_scores_window r_agent r_out].
  destruct (episodes_on_counting_agent envops noiseops max_t n_episodes 1
              (mkRun env (noise_new noiseops action_size) c [] [] []))
    as (new & out & t & Hsc & Hlen & Hw & Ht & Ha & Hs & Hall & Hend);
    [done|done|].
  cbn [r_scores r_scores_window r_agent r_out app] in Hsc, Hw, Ha, Hs, Hend.
  rewrite Hsc in *. split; [done|]. split; [done|].
  split; [by exists t|].
  destruct Hend as [(Hsv & Hone & average & Hro)|(Hsv & Hall' & Hro)].
  - left. split; [done|]. split; [done|]. by exists out, average.
  - right. split; [done|]. split; [done|]. by rewrite Hro.
Qed.

(** On the score generator of 35.0 per episode the loop stops on its
    test; on an environment that pays nothing it runs its three
    episodes. *)
Example ddpg_saves_on_examples :
  Stub.save_calls
    (r_agent (ddpg constant_35 Stub.noise Stub.agent 0 Stub.no_calls 4 3 5)) = 1
  /\ Stub.save_calls
       (r_agent (ddpg (Stub.env 2 0%Qc) Stub.noise Stub.agent 0 Stub.no_calls
                      4 3 5)) = 0.
Proof. vm_compute. done. Qed.
